(** * QR-code login for 115: the session client and the login worker

    A shallow embedding of [qrcode_Scan_cookie_115_GUI.py]: the four remote
    operations ([get_qrcode_token], [get_qrcode_status], [post_qrcode_result],
    [get_qrcode]), the name resolution [get_enum_name], and the worker
    [_login_thread_func] with the controller methods around it.

    Conventions of the model:
    - values decoded from JSON are the type [json]; Python's truth value,
      [==] against an integer literal, [dict.get], [in] and subscripting are
      the functions of module [Py];
    - a Python exception is a value of type [exn]; code that can raise lives
      in a monad [M] that threads the fields of the application object and
      the clock, returns or raises, and writes the observable events of the
      run;
    - the network, the sleeping thread and the controlling thread are an
      environment: it fixes what each request answers, how long each wait
      overshoots, and when the controlling thread sets the stop event or
      runs [set_ui_state('finished')];
    - the texts shown in the window are Chinese in the source; a status line
      is a constructor of [status_text], and the text of a message box or of
      an exception is given in English, with the f-string's holes kept;
    - time is counted in milliseconds. *)

From Stdlib Require Import ZArith QArith Bool List String Ascii Lia.
Import ListNotations.
Open Scope string_scope.
Open Scope list_scope.
Open Scope Z_scope.
Set Warnings "-register-all".

(** ** Python values *)

Module Py.

(** What [json.loads] can return.  An object keeps its pairs in order; a
    lookup takes the first pair with the key. *)
Inductive json : Type :=
| JNull
| JBool (b : bool)
| JInt (z : Z)
| JFloat (q : Q)
| JStr (s : string)
| JList (l : list json)
| JDict (d : list (string * json)).

Definition dict := list (string * json).

(** [bool(v)] *)
Definition truthy (v : json) : bool :=
  match v with
  | JNull => false
  | JBool b => b
  | JInt z => negb (z =? 0)
  | JFloat q => negb (Qeq_bool q 0)
  | JStr s => negb (String.eqb s "")
  | JList l => match l with [] => false | _ => true end
  | JDict d => match d with [] => false | _ => true end
  end.

(** [v == n] for an integer literal [n]: booleans and floats compare by
    numeric value, everything else is different from a number. *)
Definition eq_int (v : json) (n : Z) : bool :=
  match v with
  | JInt z => z =? n
  | JBool b => (if b then 1 else 0) =? n
  | JFloat q => Qeq_bool q (inject_Z n)
  | _ => false
  end.

(** [v == s] for a string literal [s]. *)
Definition eq_str (v : json) (s : string) : bool :=
  match v with
  | JStr s' => String.eqb s' s
  | _ => false
  end.

Fixpoint lookup (k : string) (d : dict) : option json :=
  match d with
  | [] => None
  | (k', v) :: d' => if String.eqb k' k then Some v else lookup k d'
  end.

Fixpoint remove (k : string) (d : dict) : dict :=
  match d with
  | [] => []
  | (k', v) :: d' => if String.eqb k' k then remove k d' else (k', v) :: remove k d'
  end.

(** [a or b] *)
Definition or_else (a b : json) : json := if truthy a then a else b.

(** Exception classes the program raises, catches or lets through.  All are
    subclasses of [Exception]; [OtherException] stands for any class not
    named in an [except] clause of the program. *)
Inductive exn_class : Type :=
| TimeoutError
| URLError
| HTTPError
| ConnectionError
| RuntimeError
| ValueError
| JSONDecodeError
| TypeError
| AttributeError
| KeyError
| OtherException.

(** An exception: its class, the text of its message (the format string
    where the source builds it with an f-string), the values formatted into
    it and the exception formatted into it or chained to it. *)
Inductive exn : Type :=
| Exn (c : exn_class) (text : string) (args : list json) (cause : option exn).

Definition class_of (e : exn) : exn_class := let (c, _, _, _) := e in c.
Definition text_of (e : exn) : string := let (_, t, _, _) := e in t.

Definition exn_class_eqb (a b : exn_class) : bool :=
  match a, b with
  | TimeoutError, TimeoutError | URLError, URLError | HTTPError, HTTPError
  | ConnectionError, ConnectionError | RuntimeError, RuntimeError
  | ValueError, ValueError | JSONDecodeError, JSONDecodeError
  | TypeError, TypeError | AttributeError, AttributeError
  | KeyError, KeyError | OtherException, OtherException => true
  | _, _ => false
  end.

(** [isinstance(e, c)]: [HTTPError] derives from [URLError] and
    [JSONDecodeError] from [ValueError]. *)
Definition isinstance (e : exn) (c : exn_class) : bool :=
  match class_of e, c with
  | HTTPError, URLError => true
  | JSONDecodeError, ValueError => true
  | a, b => exn_class_eqb a b
  end.

(** A computation that returns or raises, without touching the state. *)
Definition fallible (A : Type) : Type := (exn + A)%type.

(** [v.get(k, default)]: only a dict has the method. *)
Definition get_default (v : json) (k : string) (default : json) : fallible json :=
  match v with
  | JDict d => inr (match lookup k d with Some x => x | None => default end)
  | _ => inl (Exn AttributeError "object has no attribute 'get'" [v] None)
  end.

(** [v.get(k)] *)
Definition get (v : json) (k : string) : fallible json := get_default v k JNull.

(** [v[k]] for a string key. *)
Definition subscript (v : json) (k : string) : fallible json :=
  match v with
  | JDict d =>
      match lookup k d with
      | Some x => inr x
      | None => inl (Exn KeyError k [] None)
      end
  | _ => inl (Exn TypeError "indices must be integers or object is not subscriptable" [v] None)
  end.

(** Is [s] a substring of [t]? *)
Definition substring_of (s t : string) : bool :=
  match String.index 0 s t with Some _ => true | None => false end.

(** [k in v] for a string [k]: key of a dict, element of a list, substring
    of a string; other values are not containers. *)
Definition contains (v : json) (k : string) : fallible bool :=
  match v with
  | JDict d => inr (match lookup k d with Some _ => true | None => false end)
  | JList l => inr (existsb (fun x => eq_str x k) l)
  | JStr t => inr (substring_of k t)
  | _ => inl (Exn TypeError "argument is not iterable" [v] None)
  end.

(** [v.pop(k)] for a string key [k] that [v] contains: the value and what
    is left of [v]. *)
Definition pop (v : json) (k : string) : fallible (json * json) :=
  match v with
  | JDict d =>
      match lookup k d with
      | Some x => inr (x, JDict (remove k d))
      | None => inl (Exn KeyError k [] None)
      end
  | JList _ => inl (Exn TypeError "'str' object cannot be interpreted as an integer" [v] None)
  | _ => inl (Exn AttributeError "object has no attribute 'pop'" [v] None)
  end.

(** [urllib.parse.urlencode(query)]: the pairs to encode.  A mapping gives
    its items; an empty sequence gives none; a non-empty sequence of JSON
    values has no tuple in front, and a value without a length is no
    sequence at all: both raise [TypeError]. *)
Definition urlencode (query : json) : fallible dict :=
  match query with
  | JDict d => inr d
  | JList [] => inr []
  | JStr "" => inr []
  | _ => inl (Exn TypeError "not a valid non-string sequence or mapping object" [query] None)
  end.

End Py.
Import Py.

(** ** The device classes *)

(** [AppEnum = Enum("AppEnum", "web, android, ios, linux, mac, windows, tv,
    alipaymini, wechatmini, qandroid")]: the members take the values 1 to 10
    in this order. *)
Inductive AppEnum : Type :=
| web | android | ios | linux | mac | windows | tv
| alipaymini | wechatmini | qandroid.

Definition members : list AppEnum :=
  [web; android; ios; linux; mac; windows; tv; alipaymini; wechatmini; qandroid].

Definition name (m : AppEnum) : string :=
  match m with
  | web => "web" | android => "android" | ios => "ios" | linux => "linux"
  | mac => "mac" | windows => "windows" | tv => "tv"
  | alipaymini => "alipaymini" | wechatmini => "wechatmini"
  | qandroid => "qandroid"
  end.

Definition value (m : AppEnum) : Z :=
  match m with
  | web => 1 | android => 2 | ios => 3 | linux => 4 | mac => 5
  | windows => 6 | tv => 7 | alipaymini => 8 | wechatmini => 9
  | qandroid => 10
  end.

(** What a caller can pass as [app]: a member of the enumeration or a plain
    value. *)
Inductive pyobj : Type :=
| Member (m : AppEnum)
| Plain (v : json).

(** [AppEnum[s]]: the member called [s]; [None] is [KeyError]. *)
Definition by_name (s : string) : option AppEnum :=
  find (fun m => String.eqb (name m) s) members.

(** [AppEnum(v)]: the member whose value equals [v]; [None] is
    [ValueError]. *)
Definition by_value (v : json) : option AppEnum :=
  find (fun m => eq_int v (value m)) members.

Definition get_enum_name (val : pyobj) : fallible string :=
  match val with
  | Member m => inr (name m)
  | Plain v =>
      let named :=
        match v with
        | JStr s => by_name s
        | _ => None
        end in
      match named with
      | Some m => inr (name m)
      | None =>
          match by_value v with
          | Some m => inr (name m)
          | None =>
              inl (Exn ValueError "'{val}' is not a valid member or name in AppEnum" [v] None)
          end
      end
  end.

(** ** Observable events *)

Definition bytes := list Byte.byte.

(** The four requests.  The status request carries the encoded pairs, the
    result request the name in its path and the posted form. *)
Inductive endpoint : Type :=
| TokenApi
| StatusApi (query : dict)
| ResultApi (app_name : string) (form : dict)
| ImageApi (uid : json).

(** Entry into one of the exported operations. *)
Inductive api_call : Type :=
| Call_get_qrcode_token
| Call_get_qrcode_status (payload : json)
| Call_post_qrcode_result (uid : json) (app : pyobj)
| Call_get_qrcode (uid : json).

Inductive retval : Type :=
| Json (j : json)
| Bytes (b : bytes).

(** The texts [update_status] is called with, one constructor per place. *)
Inductive status_text : Type :=
| St_fetching_qrcode
| St_getting_token
| St_downloading_image
| St_waiting_for_scan
| St_poll_error (poll_err : exn)
| St_empty_response
| St_error (err_msg : json)
| St_scanned
| St_confirmed
| St_login_succeeded
| St_network_retry (error : json)
| St_unknown_status (status status_data : json)
| St_stopped
| St_stopping
| St_nothing_to_stop
| St_error_line (first_line_of : exn + string).

Inductive ui_state : Type := running | finished | idle.

(** What reaches the window: every [master.after(0, ...)] callback and the
    widget calls made directly. *)
Inductive ui_event : Type :=
| UpdateStatus (t : status_text)
| ErrorBox (message : exn + string)
| InfoBox (message : string) (args : list string)
| QrImage (image_data : bytes)
| QrText (placeholder : string)
| CookieText (cookie_dict : dict)
| CookieClear
| Widgets (s : ui_state)
| After_set_ui_state (s : ui_state).

Inductive warning : Type :=
| Warn_status_failed (e : exn)
| Warn_status_unexpected (e : exn)
| Warn_unknown_status (status_resp : json).

(** [Call] and [Return] mark the entry into an exported operation and its
    normal return; an operation that raises leaves no [Return].  [Stop_seen]
    marks a read of the stop event that found it set. *)
Inductive event : Type :=
| Call (c : api_call)
| Return (v : retval)
| Stop_seen
| UrlOpen (e : endpoint) (timeout : Z)
| Sleep (seconds : Z)
| Ui (u : ui_event)
| Printed (w : warning).

(** ** The application object and the monad *)

(** The fields of [QRCodeLoginApp] the worker and the controller share,
    with the monotonic clock. *)
Record app : Type := App {
  now : Z;
  polling_active : bool;
  stop_event : bool;
  qrcode_token : json;
  current_app_type : string;
  selected_app_type_var : string;
  thread_alive : bool
}.

Inductive result (A : Type) : Type :=
| Ok (a : A)
| Raise (e : exn)
| Diverge.
Arguments Ok {A} a.
Arguments Raise {A} e.
Arguments Diverge {A}.

(** A run: how it ends, the application after it, the events it wrote. *)
Record run (A : Type) : Type := Run {
  ending : result A;
  after : app;
  trace : list event
}.
Arguments Run {A} ending after trace.
Arguments ending {A} r.
Arguments after {A} r.
Arguments trace {A} r.

Definition M (A : Type) : Type := app -> run A.

Definition ret {A} (a : A) : M A := fun s => Run (Ok a) s [].

(** [extend t r]: the run [r] after the events [t]. *)
Definition extend {A} (t : list event) (r : run A) : run A :=
  match r with
  | Run e s t' => Run e s (t ++ t')
  end.

Definition bind {A B} (m : M A) (k : A -> M B) : M B :=
  fun s =>
    match m s with
    | Run (Ok a) s' t => extend t (k a s')
    | Run (Raise e) s' t => Run (Raise e) s' t
    | Run Diverge s' t => Run Diverge s' t
    end.

Declare Scope monad_scope.
Delimit Scope monad_scope with monad.
Notation "x <- m ;; k" := (bind m (fun x => k))
  (at level 61, m at next level, right associativity) : monad_scope.
Notation "m ;; k" := (bind m (fun _ => k))
  (at level 61, right associativity) : monad_scope.
Open Scope monad_scope.

Definition raise {A} (e : exn) : M A := fun s => Run (Raise e) s [].
Definition diverge {A} : M A := fun s => Run Diverge s [].

Definition lift {A} (f : fallible A) : M A :=
  match f with
  | inr a => ret a
  | inl e => raise e
  end.

Definition gets {A} (f : app -> A) : M A := fun s => Run (Ok (f s)) s [].
Definition modify (f : app -> app) : M unit := fun s => Run (Ok tt) (f s) [].
Definition emit (e : event) : M unit := fun s => Run (Ok tt) s [e].

Definition set_polling_active (b : bool) : M unit :=
  modify (fun s => App (now s) b (stop_event s) (qrcode_token s)
                       (current_app_type s) (selected_app_type_var s)
                       (thread_alive s)).

Definition set_stop_event (b : bool) : M unit :=
  modify (fun s => App (now s) (polling_active s) b (qrcode_token s)
                       (current_app_type s) (selected_app_type_var s)
                       (thread_alive s)).

Definition set_qrcode_token (t : json) : M unit :=
  modify (fun s => App (now s) (polling_active s) (stop_event s) t
                       (current_app_type s) (selected_app_type_var s)
                       (thread_alive s)).

Definition set_current_app_type (a : string) : M unit :=
  modify (fun s => App (now s) (polling_active s) (stop_event s) (qrcode_token s)
                       a (selected_app_type_var s) (thread_alive s)).

Definition set_thread_alive (b : bool) : M unit :=
  modify (fun s => App (now s) (polling_active s) (stop_event s) (qrcode_token s)
                       (current_app_type s) (selected_app_type_var s) b).

Definition advance (ms : Z) : M unit :=
  modify (fun s => App (now s + ms) (polling_active s) (stop_event s) (qrcode_token s)
                       (current_app_type s) (selected_app_type_var s)
                       (thread_alive s)).

(** One [except] clause: which exceptions it takes, and its body. *)
Definition clause (A : Type) : Type := ((exn -> bool) * (exn -> M A))%type.

Fixpoint dispatch {A} (e : exn) (clauses : list (clause A)) : M A :=
  match clauses with
  | [] => raise e
  | (takes, handler) :: rest => if takes e then handler e else dispatch e rest
  end.

(** [try: body except ...]: the first clause that takes the exception runs;
    with none, the exception goes on. *)
Definition try_except {A} (body : M A) (clauses : list (clause A)) : M A :=
  fun s =>
    match body s with
    | Run (Raise e) s' t => extend t (dispatch e clauses s')
    | r => r
    end.

(** [try: body finally: cleanup]: the cleanup runs however the body ends,
    unless the body never ends. *)
Definition try_finally {A} (body : M A) (cleanup : M unit) : M A :=
  fun s =>
    match body s with
    | Run Diverge s' t => Run Diverge s' t
    | Run e s' t =>
        match cleanup s' with
        | Run (Ok _) s'' t' => Run e s'' (t ++ t')
        | Run (Raise x) s'' t' => Run (Raise x) s'' (t ++ t')
        | Run Diverge s'' t' => Run Diverge s'' (t ++ t')
        end
    end.

Definition is_a (classes : list exn_class) : exn -> bool :=
  fun e => existsb (isinstance e) classes.

(** [except Exception]: every class of the model derives from it. *)
Definition any_exception : exn -> bool := fun _ => true.

(** An exported operation, with its entry and its return marked. *)
Definition traced {A} (c : api_call) (wrap : A -> retval) (m : M A) : M A :=
  emit (Call c) ;;
  a <- m ;;
  emit (Return (wrap a)) ;;
  ret a.

(** ** The environment *)

(** What the controlling thread did to the shared fields since the worker
    last looked: [_stop_event.set()] in [stop_polling], and the scheduled
    [set_ui_state('finished')], which clears [polling_active]. *)
Record interrupt : Type := Interrupt {
  stop_set : bool;
  ui_finished : bool
}.

Definition quiet : interrupt := Interrupt false false.

(** The shared fields after the interrupt: a stop event once set stays set,
    a cleared guard stays cleared. *)
Definition disturbed (i : interrupt) (s : app) : app :=
  App (now s)
      (polling_active s && negb (ui_finished i))
      (stop_event s || stop_set i)
      (qrcode_token s) (current_app_type s) (selected_app_type_var s)
      (thread_alive s).

Definition interfere (i : interrupt) : M unit := modify (disturbed i).

(** A blocking step: by how much it overruns its nominal time, and what
    the controlling thread does meanwhile. *)
Record wait : Type := Wait {
  extra : N;
  meanwhile : interrupt
}.

Definition undisturbed : wait := Wait 0 quiet.

Inductive urlopen_result (A : Type) : Type :=
| Responds (content : A)
| Fails (e : exn).
Arguments Responds {A} content.
Arguments Fails {A} e.

(** One request: what [urlopen] and [read] do, and the wait. *)
Record reply (A : Type) : Type := Reply {
  answer : urlopen_result A;
  took : wait
}.
Arguments Reply {A} answer took.
Arguments answer {A} r.
Arguments took {A} r.

(** A response body, by what [json.loads] makes of it. *)
Inductive body : Type :=
| Document (j : json)
| Malformed.

Definition loads (b : body) : fallible json :=
  match b with
  | Document j => inr j
  | Malformed => inl (Exn JSONDecodeError "Expecting value" [] None)
  end.

(** One turn of the polling loop: what happens at each of its steps if the
    turn gets there. *)
Record tick : Type := Tick {
  at_head : interrupt;
  nap : wait;
  poll : reply body;
  backoff : wait;
  at_exit : interrupt
}.

(** A session: the answers to the token, image and result requests, whether
    the image can be opened, and the turns of the loop. *)
Record environment : Type := Environment {
  token : reply body;
  image : reply bytes;
  image_opens : bool;
  exchange : reply body;
  ticks : nat -> tick
}.

Definition elapse (w : wait) : M unit :=
  advance (Z.of_N (extra w)) ;; interfere (meanwhile w).

(** [time.sleep(seconds)] *)
Definition sleep (seconds : Z) (w : wait) : M unit :=
  emit (Sleep seconds) ;; advance (1000 * seconds) ;; elapse w.

(** [time.monotonic()] *)
Definition monotonic : M Z := gets now.

(** [self._stop_event.is_set()] *)
Definition is_set : M bool :=
  stopped <- gets stop_event ;;
  (if stopped then emit Stop_seen else ret tt) ;;
  ret stopped.

(** [with urlopen(req, timeout=...) as response: response.read()] *)
Definition urlopen {A} (e : endpoint) (timeout : Z) (r : reply A) : M A :=
  emit (UrlOpen e timeout) ;;
  elapse (took r) ;;
  match answer r with
  | Responds content => ret content
  | Fails x => raise x
  end.

(** ** The session client *)

Definition transport_errors : list exn_class := [URLError; HTTPError; TimeoutError].

Definition get_qrcode_token (r : reply body) : M json :=
  traced Call_get_qrcode_token Json
    (try_except
       (response <- urlopen TokenApi 10 r ;;
        lift (loads response))
       [ (is_a transport_errors,
          fun e => raise (Exn ConnectionError "Failed to get QR code token: {e}" [] (Some e)));
         (any_exception,
          fun e => raise (Exn RuntimeError "An unexpected error occurred getting token: {e}" [] (Some e))) ]).

(** [str(e)] *)
Definition str (e : exn) : json := JStr (text_of e).

(** [{"state": True, "data": {"status": 0}}] *)
Definition waiting_response : json :=
  JDict [("state", JBool true); ("data", JDict [("status", JInt 0)])].

(** [{"state": False, "error": str(e), "data": {"status": -99}}] *)
Definition network_error_response (e : exn) : json :=
  JDict [("state", JBool false); ("error", str e); ("data", JDict [("status", JInt (-99))])].

Definition get_qrcode_status (payload : json) (r : reply body) : M json :=
  traced (Call_get_qrcode_status payload) Json
    (query <- lift (urlencode payload) ;;
     try_except
       (response <- urlopen (StatusApi query) 5 r ;;
        lift (loads response))
       [ (is_a [TimeoutError],
          fun _ => ret waiting_response);
         (is_a [URLError; HTTPError],
          fun e => emit (Printed (Warn_status_failed e)) ;;
                   ret (network_error_response e));
         (any_exception,
          fun e => emit (Printed (Warn_status_unexpected e)) ;;
                   ret (network_error_response e)) ]).

Definition post_qrcode_result (uid : json) (app : pyobj) (r : reply body) : M json :=
  traced (Call_post_qrcode_result uid app) Json
    (app_name <-
       try_except (lift (get_enum_name app))
         [ (is_a [ValueError],
            fun e => raise (Exn ValueError "Invalid app type provided: {app}" [] (Some e))) ] ;;
     let payload := JDict [("app", JStr app_name); ("account", uid)] in
     form <- lift (urlencode payload) ;;
     try_except
       (response <- urlopen (ResultApi app_name form) 10 r ;;
        lift (loads response))
       [ (is_a transport_errors,
          fun e => raise (Exn ConnectionError
                            "Failed to post QR code result for app '{app_name}': {e}"
                            [JStr app_name] (Some e)));
         (any_exception,
          fun e => raise (Exn RuntimeError
                            "An unexpected error occurred posting result for app '{app_name}': {e}"
                            [JStr app_name] (Some e))) ]).

Definition get_qrcode (uid : json) (r : reply bytes) : M bytes :=
  traced (Call_get_qrcode uid) Bytes
    (try_except
       (urlopen (ImageApi uid) 10 r)
       [ (is_a transport_errors,
          fun e => raise (Exn ConnectionError "Failed to download QR code image: {e}" [] (Some e)));
         (any_exception,
          fun e => raise (Exn RuntimeError "An unexpected error occurred downloading QR image: {e}" [] (Some e))) ]).

(** ** The window *)

Definition update_status (message : status_text) : M unit :=
  emit (Ui (UpdateStatus message)).

Definition show_error (message : exn + string) : M unit :=
  emit (Ui (ErrorBox message)) ;;
  update_status (St_error_line message).

Definition show_info (message : string) (args : list string) : M unit :=
  emit (Ui (InfoBox message args)).

(** [Image.open] and the thumbnail either succeed or raise; the failure is
    caught here and shown. *)
Definition display_qr_code (image_data : bytes) (opens : bool) : M unit :=
  if opens then emit (Ui (QrImage image_data))
  else
    show_error (inr "cannot display the QR code: {e}") ;;
    emit (Ui (QrText "cannot display the QR code")).

(** [cookie_dict.items()] needs a dict. *)
Definition display_cookies (cookie_dict : json) : M unit :=
  match cookie_dict with
  | JDict d => emit (Ui (CookieText d))
  | _ => raise (Exn AttributeError "object has no attribute 'items'" [cookie_dict] None)
  end.

Definition set_ui_state (s : ui_state) : M unit :=
  match s with
  | running => emit (Ui (Widgets running))
  | finished | idle =>
      emit (Ui (Widgets s)) ;;
      set_polling_active false
  end.

(** ** The worker *)

Inductive control : Type := Continue | Break.

Definition timeout_seconds : Z := 180.

(** [resp.get('msg') or resp.get('error', fallback)] *)
Definition err_msg_of (resp : json) (fallback : string) : fallible json :=
  match get resp "msg" with
  | inl e => inl e
  | inr m => if truthy m then inr m else get_default resp "error" (JStr fallback)
  end.

(** Step 4 of the worker: the branch of [status == 2]. *)
Definition fetch_cookies (uid : json) (selected_app : string) (r : reply body) : M control :=
  update_status St_confirmed ;;
  login_result <- post_qrcode_result uid (Plain (JStr selected_app)) r ;;
  state <- (if truthy login_result then lift (get login_result "state") else ret login_result) ;;
  if truthy state then
    data <- lift (get_default login_result "data" (JDict [])) ;;
    cookies <- lift (get_default data "cookie" (JDict [])) ;;
    if negb (truthy cookies) then
      raise (Exn RuntimeError "cookie fetched, but the cookie is empty; response: {login_result}"
               [login_result] None)
    else
      display_cookies cookies ;;
      update_status St_login_succeeded ;;
      show_info "login succeeded ({selected_app} App); the cookie is displayed" [selected_app] ;;
      ret Break
  else
    err_msg <- lift (err_msg_of login_result "unknown error") ;;
    raise (Exn RuntimeError "fetching the cookie failed ({selected_app} App): {err_msg}"
             [JStr selected_app; err_msg] None).

(** The loop body from [if not status_resp:] on. *)
Definition on_status (status_resp : json) (uid : json) (selected_app : string)
    (r : reply body) : M control :=
  if negb (truthy status_resp) then
    update_status St_empty_response ;;
    ret Continue
  else
    state <- lift (get status_resp "state") ;;
    if negb (truthy state) then
      err_msg <- lift (err_msg_of status_resp "polling the status failed") ;;
      update_status (St_error err_msg) ;;
      ret Continue
    else
      status_data <- lift (get_default status_resp "data" (JDict [])) ;;
      status <- lift (get status_data "status") ;;
      status_msg <- lift (get_default status_data "msg" (JStr "")) ;;
      if eq_int status 0 then
        update_status St_waiting_for_scan ;; ret Continue
      else if eq_int status 1 then
        update_status St_scanned ;; ret Continue
      else if eq_int status 2 then
        fetch_cookies uid selected_app r
      else if eq_int status (-1) then
        raise (Exn RuntimeError "the QR code has expired ({status_msg}), fetch a new one"
                 [status_msg] None)
      else if eq_int status (-2) then
        raise (Exn RuntimeError "login was cancelled ({status_msg})" [status_msg] None)
      else if eq_int status (-99) then
        error <- lift (get status_resp "error") ;;
        update_status (St_network_retry error) ;; ret Continue
      else
        update_status (St_unknown_status status status_data) ;;
        emit (Printed (Warn_unknown_status status_resp)) ;;
        ret Continue.

(** One turn of [while self.polling_active and not self._stop_event.is_set()],
    after the condition held. *)
Definition loop_body (t : tick) (uid : json) (selected_app : string)
    (r : reply body) (start_time : Z) : M control :=
  current <- monotonic ;;
  if current - start_time >? 1000 * timeout_seconds then
    raise (Exn RuntimeError "scanning timed out, fetch a new QR code" [] None)
  else
    sleep 2 (nap t) ;;
    stopped <- is_set ;;
    if stopped then ret Break
    else
      payload <- gets qrcode_token ;;
      polled <-
        try_except
          (status_resp <- get_qrcode_status payload (poll t) ;;
           ret (Some status_resp))
          [ (any_exception,
             fun poll_err =>
               update_status (St_poll_error poll_err) ;;
               sleep 3 (backoff t) ;;
               ret None) ] ;;
      match polled with
      | None => ret Continue
      | Some status_resp =>
          stopped <- is_set ;;
          if stopped then ret Break
          else on_status status_resp uid selected_app r
      end.

(** The [while] loop from turn [i] on.  [fuel] bounds the number of turns;
    a loop that outlives it diverges. *)
Fixpoint poll_loop (fuel : nat) (ticks : nat -> tick) (i : nat) (uid : json)
    (selected_app : string) (r : reply body) (start_time : Z) : M unit :=
  match fuel with
  | O => diverge
  | S fuel' =>
      let t := ticks i in
      interfere (at_head t) ;;
      active <- gets polling_active ;;
      stopped <- (if active then is_set else ret false) ;;
      if active && negb stopped then
        c <- loop_body t uid selected_app r start_time ;;
        match c with
        | Continue => poll_loop fuel' ticks (S i) uid selected_app r start_time
        | Break => interfere (at_exit t)
        end
      else interfere (at_exit t)
  end.

(** Every turn sleeps two seconds and the loop gives up after 180: it
    cannot take more turns than this. *)
Definition max_turns : nat := 92.

(** 1. Get QR Code Token: the [uid] of the session; the issued parameters
    stay in [self.qrcode_token]. *)
Definition acquire_token (env : environment) : M json :=
  update_status St_getting_token ;;
  token_resp <- get_qrcode_token (token env) ;;
  state <- (if truthy token_resp then lift (get token_resp "state") else ret token_resp) ;;
  if negb (truthy state) then
    err_msg <- lift (err_msg_of token_resp "unknown error") ;;
    raise (Exn RuntimeError "getting the token failed: {err_msg}" [err_msg] None)
  else
    data <- lift (subscript token_resp "data") ;;
    set_qrcode_token data ;;
    has_qrcode <- lift (contains data "qrcode") ;;
    has_uid <- (if has_qrcode then lift (contains data "uid") else ret false) ;;
    if negb (has_qrcode && has_uid) then
      raise (Exn RuntimeError "the token response is malformed: {self.qrcode_token}" [data] None)
    else
      popped <- lift (pop data "qrcode") ;;
      set_qrcode_token (snd popped) ;;
      lift (subscript (snd popped) "uid").

(** 2. Get QR Code Image *)
Definition show_qrcode (env : environment) (uid : json) : M unit :=
  update_status St_downloading_image ;;
  qr_image_data <- get_qrcode uid (image env) ;;
  display_qr_code qr_image_data (image_opens env).

(** 3. Poll for Status, with step 4 inside the loop. *)
Definition poll_for_status (env : environment) (uid : json) (selected_app : string) : M unit :=
  update_status St_waiting_for_scan ;;
  start_time <- monotonic ;;
  poll_loop max_turns (ticks env) 0 uid selected_app (exchange env) start_time ;;
  stopped <- is_set ;;
  if stopped then update_status St_stopped else ret tt.

(** The body of the [try] in [_login_thread_func]. *)
Definition login_steps (env : environment) (selected_app : string) : M unit :=
  uid <- acquire_token env ;;
  show_qrcode env uid ;;
  poll_for_status env uid selected_app.

Definition _login_thread_func (env : environment) : M unit :=
  set_polling_active true ;;
  selected_app <- gets current_app_type ;;
  try_finally
    (try_except
       (login_steps env selected_app)
       [ (any_exception, fun e => show_error (inl e)) ])
    (set_polling_active false ;;
     emit (Ui (After_set_ui_state finished))).

(** ** The controller *)

(** [start_login_process]; starting the thread runs the worker, and the
    thread is alive while it runs. *)
Definition start_login_process (env : environment) : M unit :=
  active <- gets polling_active ;;
  if active then show_info "a login is already in progress" []
  else
    chosen <- gets selected_app_type_var ;;
    set_current_app_type chosen ;;
    if String.eqb chosen "" then show_error (inr "choose an App type first")
    else
      set_ui_state running ;;
      update_status St_fetching_qrcode ;;
      emit (Ui CookieClear) ;;
      emit (Ui (QrText "loading")) ;;
      set_stop_event false ;;
      set_thread_alive true ;;
      _login_thread_func env ;;
      set_thread_alive false.

Definition stop_polling : M unit :=
  alive <- gets thread_alive ;;
  (if alive then set_stop_event true ;; update_status St_stopping
   else update_status St_nothing_to_stop) ;;
  emit (Ui (After_set_ui_state finished)).

(** The application after [__init__], with [choice] selected in the
    combobox. *)
Definition fresh (choice : string) : app :=
  App 0 false false JNull "" choice false.

(** ** Reading a response and a trace *)

(** The status code of a poll response, as the loop reads it:
    [status_resp.get("data", {}).get("status")]. *)
Definition status_of (status_resp : json) : option json :=
  match get_default status_resp "data" (JDict []) with
  | inr status_data =>
      match get status_data "status" with
      | inr status => Some status
      | inl _ => None
      end
  | inl _ => None
  end.

(** The response is a success response ([state] true) with status [n]. *)
Definition reports (n : Z) (status_resp : json) : bool :=
  truthy status_resp
  && match get status_resp "state" with inr state => truthy state | inl _ => false end
  && match status_of status_resp with Some status => eq_int status n | None => false end.

(** The codes the loop has a branch for. *)
Definition recognized_codes : list Z := [0; 1; 2; -1; -2; -99].

Definition recognized (status : json) : bool :=
  existsb (eq_int status) recognized_codes.

(** The credential mapping of an exchange response:
    [login_result.get("data", {}).get("cookie", {})]. *)
Definition cookies_of (login_result : json) : option json :=
  match get_default login_result "data" (JDict []) with
  | inr data =>
      match get_default data "cookie" (JDict []) with
      | inr cookies => Some cookies
      | inl _ => None
      end
  | inl _ => None
  end.


(** What [get_qrcode_status] returns for an answer of the network, once
    the request is on its way. *)
Definition poll_outcome (r : reply body) : json :=
  match answer r with
  | Responds (Document j) => j
  | Responds Malformed => network_error_response (Exn JSONDecodeError "Expecting value" [] None)
  | Fails e => if isinstance e TimeoutError then waiting_response else network_error_response e
  end.

(** The three ways to name the member [m]: the member itself, its name,
    a value equal to its value. *)
Definition is_form (val : pyobj) (m : AppEnum) : bool :=
  match val with
  | Member m' => value m' =? value m
  | Plain v => eq_str v (name m) || eq_int v (value m)
  end.

Definition is_call (e : event) : bool :=
  match e with Call _ => true | _ => false end.

Definition is_request (e : event) : bool :=
  match e with UrlOpen _ _ => true | _ => false end.

(** Anything that reaches for the remote service. *)
Definition is_remote (e : event) : bool := is_call e || is_request e.

Definition is_token_call (e : event) : bool :=
  match e with Call Call_get_qrcode_token => true | _ => false end.

Definition is_image_call (e : event) : bool :=
  match e with Call (Call_get_qrcode _) => true | _ => false end.

Definition is_poll (e : event) : bool :=
  match e with
  | Call (Call_get_qrcode_status _) | UrlOpen (StatusApi _) _ => true
  | _ => false
  end.



Definition is_status_update (e : event) : bool :=
  match e with Ui (UpdateStatus _) => true | _ => false end.

(** The error box of the worker's own handler: the session failed. *)
Definition is_fatal_box (e : event) : bool :=
  match e with Ui (ErrorBox (inl _)) => true | _ => false end.

Definition shows_cookies (e : event) : bool :=
  match e with Ui (CookieText _) => true | _ => false end.

Definition says_success (e : event) : bool :=
  match e with
  | Ui (UpdateStatus St_login_succeeded) | Ui (InfoBox _ _) => true
  | _ => false
  end.

Definition says_stopped (e : event) : bool :=
  match e with Ui (UpdateStatus St_stopped) => true | _ => false end.

Definition enters_polling (e : event) : bool :=
  match e with Ui (UpdateStatus St_waiting_for_scan) => true | _ => false end.

Definition is_stop_seen (e : event) : bool :=
  match e with Stop_seen => true | _ => false end.

(** What lies between the entry into a status poll and its return. *)
Definition poll_detail (e : event) : bool :=
  match e with
  | UrlOpen (StatusApi _) _ | Printed _ => true
  | _ => false
  end.

(** What may follow the entry into the exchange: its own request and
    return, and what the window shows; no other operation, no sleep. *)
Definition exchange_tail (e : event) : bool :=
  match e with
  | Call _ | Sleep _ => false
  | UrlOpen (ResultApi _ _) _ => true
  | UrlOpen _ _ => false
  | _ => true
  end.




(** ** Classes of events, by where they come from *)

Definition is_sleep (e : event) : bool :=
  match e with Sleep _ => true | _ => false end.

(** A success response: not empty, and its [state] is true. *)
Definition accepted (resp : json) : bool :=
  truthy resp
  && match get resp "state" with inr state => truthy state | inl _ => false end.

(** Events of the handling of a poll outcome other than "confirmed". *)
Definition advisory (e : event) : bool :=
  match e with
  | Ui (UpdateStatus St_waiting_for_scan) | Ui (UpdateStatus St_scanned)
  | Ui (UpdateStatus St_empty_response) | Ui (UpdateStatus (St_error _))
  | Ui (UpdateStatus (St_network_retry _))
  | Ui (UpdateStatus (St_unknown_status _ _)) | Printed _ => true
  | _ => false
  end.

(** Events of the token step. *)
Definition token_phase (e : event) : bool :=
  match e with
  | Ui (UpdateStatus St_getting_token) | Call Call_get_qrcode_token
  | UrlOpen TokenApi _ | Return (Json _) => true
  | _ => false
  end.

(** Events before the polling phase. *)
Definition prelude (e : event) : bool :=
  match e with
  | Ui (UpdateStatus St_downloading_image) | Call (Call_get_qrcode _)
  | UrlOpen (ImageApi _) _ | Return (Bytes _) | Ui (QrImage _) | Ui (QrText _)
  | Ui (ErrorBox (inr _)) | Ui (UpdateStatus (St_error_line (inr _))) => true
  | _ => token_phase e
  end.


(** What [show_qrcode] writes when the image arrives. *)
Definition image_shown (env : environment) (uid : json) (b : bytes) : list event :=
  [Ui (UpdateStatus St_downloading_image); Call (Call_get_qrcode uid);
   UrlOpen (ImageApi uid) 10; Return (Bytes b)]
  ++ (if image_opens env then [Ui (QrImage b)]
      else [Ui (ErrorBox (inr "cannot display the QR code: {e}"));
            Ui (UpdateStatus (St_error_line (inr "cannot display the QR code: {e}")));
            Ui (QrText "cannot display the QR code")]).

(** The end of the worker's trace, after the steps: the error box of the
    handler if they raised, and the reset of the window. *)
Definition epilogue (e : result unit) : list event :=
  match e with
  | Raise x => [Ui (ErrorBox (inl x)); Ui (UpdateStatus (St_error_line (inl x)))]
  | _ => []
  end ++ [Ui (After_set_ui_state finished)].



(** The computation ends from every state, and the clock does not go
    back. *)
Definition steady {A} (m : M A) : Prop :=
  forall s, ending (m s) <> Diverge /\ now s <= now (after (m s)).

Definition halting {A} (m : M A) : Prop := forall s, ending (m s) <> Diverge.

(** ** Sessions to run *)

Definition answers (j : json) : reply body := Reply (Responds (Document j)) undisturbed.

Definition refuses {A} (e : exn) : reply A := Reply (Fails e) undisturbed.

(** A token response: [uid], [time], [sign] and the code payload. *)
Definition token_issued : reply body :=
  answers (JDict [("state", JInt 1);
                  ("data", JDict [("uid", JStr "U1"); ("time", JInt 1700000000);
                                  ("sign", JStr "f00d"); ("qrcode", JStr "115://U1")])]).

Definition status_is (n : Z) : reply body :=
  answers (JDict [("state", JInt 1); ("data", JDict [("status", JInt n)])]).

Definition cookies_granted : reply body :=
  answers (JDict [("state", JInt 1);
                  ("data", JDict [("cookie", JDict [("UID", JStr "1_A1"); ("CID", JStr "c0")])])]).


Definition network_down : exn := Exn URLError "<urlopen error timed out>" [] None.

(** A turn in which nobody touches the shared fields. *)
Definition turn (p : reply body) : tick := Tick quiet undisturbed p undisturbed quiet.


Definition some_image : bytes := [Byte.x89; Byte.x50; Byte.x4e; Byte.x47].

(** Waiting twice, then confirmed, and the credentials arrive. *)
Definition session_granted : environment :=
  Environment token_issued (Reply (Responds some_image) undisturbed) true cookies_granted
    (fun i => match i with
              | 0%nat | 1%nat => turn (status_is 0)
              | _ => turn (status_is 2)
              end).

(** The token is issued, the image cannot be fetched. *)
Definition session_image_down : environment :=
  Environment token_issued (refuses network_down) true cookies_granted
    (fun _ => turn (status_is 2)).


(** The first poll fails in transit, the second finds the code expired. *)
Definition session_flaky : environment :=
  Environment token_issued (Reply (Responds some_image) undisturbed) true cookies_granted
    (fun i => match i with
              | 0%nat => turn (refuses network_down)
              | _ => turn (status_is (-1))
              end).



(** The application right after [start_login_process] has started the
    worker for the device class [choice]. *)
Definition started (choice : string) : app :=
  App 0 false false JNull choice choice true.

(** ** More readings of a trace *)

Definition is_status_call (e : event) : bool :=
  match e with Call (Call_get_qrcode_status _) => true | _ => false end.

(** The class an operation turns a failure of its request into: the
    transport errors become [ConnectionError], the rest [RuntimeError]. *)
Definition reraised_as (e : exn) : exn_class :=
  if is_a transport_errors e then ConnectionError else RuntimeError.

(** [m], run where [inv] holds, keeps [inv] and writes only [good]
    events. *)
Definition respects (inv : app -> Prop) (good : event -> Prop) {A} (m : M A) : Prop :=
  forall s, inv s -> inv (after (m s)) /\ Forall good (trace (m s)).




(** Shows credentials or says that the login succeeded. *)
Definition celebrates (e : event) : bool := shows_cookies e || says_success e.

(** What a successful exchange writes for the window, for the credentials
    [cd] and the device class [a]. *)
Definition celebration (cd : dict) (a : string) : list event :=
  [Ui (CookieText cd); Ui (UpdateStatus St_login_succeeded);
   Ui (InfoBox "login succeeded ({selected_app} App); the cookie is displayed" [a])].

(** A run against the exchange [r] for the device class [a] celebrates
    nothing, or it ended well and celebrated, once, the credentials that
    the exchange answered. *)
Definition genuine (r : reply body) (a : string) (e : result unit) (t : list event) : Prop :=
  filter celebrates t = []
  \/ (e = Ok tt
      /\ exists res cd,
           answer r = Responds (Document res)
           /\ accepted res = true
           /\ cookies_of res = Some (JDict cd)
           /\ cd <> []
           /\ filter celebrates t = celebration cd a).


(** The stop event is not set. *)
Definition unstopped (s : app) : Prop := stop_event s = false.


(** Neither a read of the stop event that found it set nor the line
    "stopped". *)
Definition unhalted (e : event) : Prop :=
  is_stop_seen e = false /\ says_stopped e = false.

(** Nobody presses stop during the wait, or during the turn. *)
Definition calm_wait (w : wait) : bool := negb (stop_set (meanwhile w)).

Definition calm_tick (t : tick) : bool :=
  negb (stop_set (at_head t)) && calm_wait (nap t) && calm_wait (took (poll t))
  && calm_wait (backoff t) && negb (stop_set (at_exit t)).

(** A session in which stop is never pressed. *)
Definition never_stopped (env : environment) : Prop :=
  calm_wait (took (token env)) = true
  /\ calm_wait (took (image env)) = true
  /\ calm_wait (took (exchange env)) = true
  /\ forall i, calm_tick (ticks env i) = true.

(** The application when a new login is requested while the stop event of
    an earlier session is still set. *)
Definition stale (choice : string) : app :=
  App 0 false true JNull "" choice false.

(** The error of the loop when the code was not confirmed in time. *)
Definition timed_out : exn :=
  Exn RuntimeError "scanning timed out, fetch a new QR code" [] None.

(** A turn in which nobody presses stop or resets the window, and whose
    poll finds the code waiting or scanned. *)
Definition unanswered (t : tick) : bool :=
  negb (stop_set (at_head t)) && negb (ui_finished (at_head t))
  && negb (stop_set (meanwhile (nap t))) && negb (ui_finished (meanwhile (nap t)))
  && negb (stop_set (meanwhile (took (poll t))))
  && negb (ui_finished (meanwhile (took (poll t))))
  && (reports 0 (poll_outcome (poll t)) || reports 1 (poll_outcome (poll t))).

(** A code that is never confirmed: every poll finds it waiting. *)
Definition session_unanswered : environment :=
  Environment token_issued (Reply (Responds some_image) undisturbed) true cookies_granted
    (fun _ => turn (status_is 0)).

(** Nobody presses stop or resets the window during the wait. *)
Definition quiet_wait (w : wait) : bool :=
  negb (stop_set (meanwhile w)) && negb (ui_finished (meanwhile w)).


(** Every status poll of the trace is entered right after a sleep of two
    seconds; [slept] tells whether such a sleep is what came last. *)
Fixpoint paced_from (slept : bool) (t : list event) : bool :=
  match t with
  | [] => true
  | e :: rest =>
      (if is_status_call e then slept else true)
      && paced_from (match e with Sleep seconds => seconds =? 2 | _ => false end) rest
  end.

(** A token response that is refused, and one that lacks the [uid]. *)
Definition session_token_refused : environment :=
  Environment (answers (JDict [("state", JInt 0); ("msg", JStr ""); ("error", JStr "busy")]))
    (Reply (Responds some_image) undisturbed) true cookies_granted
    (fun _ => turn (status_is 0)).

Definition session_token_bare : environment :=
  Environment (answers (JDict [("state", JInt 1);
                               ("data", JDict [("qrcode", JStr "115://U1")])]))
    (Reply (Responds some_image) undisturbed) true cookies_granted
    (fun _ => turn (status_is 0)).

Open Scope monad_scope.
(** * Properties *)

(** ** Evaluating a run *)

Lemma ending_extend {A} (t : list event) (r : run A) : ending (extend t r) = ending r.
Proof. now destruct r. Qed.

Lemma after_extend {A} (t : list event) (r : run A) : after (extend t r) = after r.
Proof. now destruct r. Qed.

Lemma trace_extend {A} (t : list event) (r : run A) : trace (extend t r) = t ++ trace r.
Proof. now destruct r. Qed.

(** Unfolds the monad and the window, down to the first step that waits
    for a case analysis. *)
Ltac run_cbv :=
  cbv beta iota zeta delta
    [bind ret raise diverge lift gets modify emit extend
     set_polling_active set_stop_event set_qrcode_token set_current_app_type
     set_thread_alive advance try_except try_finally dispatch traced
     interfere disturbed elapse sleep monotonic is_set urlopen
     update_status show_error show_info display_qr_code display_cookies
     set_ui_state any_exception
     ending after trace now polling_active stop_event qrcode_token
     current_app_type selected_app_type_var thread_alive
     fst snd orb andb negb];
  cbn [List.app].

Ltac run_cbv_in H :=
  cbv beta iota zeta delta
    [bind ret raise diverge lift gets modify emit extend
     set_polling_active set_stop_event set_qrcode_token set_current_app_type
     set_thread_alive advance try_except try_finally dispatch traced
     interfere disturbed elapse sleep monotonic is_set urlopen
     update_status show_error show_info display_qr_code display_cookies
     set_ui_state any_exception
     ending after trace now polling_active stop_event qrcode_token
     current_app_type selected_app_type_var thread_alive
     fst snd orb andb negb] in H;
  cbn [List.app] in H.

Ltac run_case :=
  match goal with
  | |- context [match ?x with _ => _ end] =>
      lazymatch x with
      | context [match _ with _ => _ end] => fail
      | _ => first [is_var x; destruct x | destruct x eqn:?]
      end
  end.

Ltac run_all :=
  run_cbv; rewrite ?orb_false_r;
  repeat (run_case; run_cbv; rewrite ?orb_false_r).

(** ** Names of device classes *)

Lemma by_name_name m : by_name (name m) = Some m.
Proof. destruct m; reflexivity. Qed.

Lemma by_name_sound s m : by_name s = Some m -> s = name m.
Proof.
  unfold by_name. intros H. apply find_some in H. destruct H as [_ H].
  apply String.eqb_eq in H. congruence.
Qed.

Lemma by_value_sound v m : by_value v = Some m -> eq_int v (value m) = true.
Proof. unfold by_value. intros H. apply find_some in H. tauto. Qed.

Lemma eq_int_unique v a b : eq_int v a = true -> eq_int v b = true -> a = b.
Proof.
  destruct v; simpl; try discriminate.
  - intros H1 H2. apply Z.eqb_eq in H1, H2. congruence.
  - intros H1 H2. apply Z.eqb_eq in H1, H2. congruence.
  - intros H1 H2. apply Qeq_bool_iff in H1, H2.
    rewrite H1 in H2. unfold Qeq in H2. simpl in H2. lia.
Qed.

Lemma value_inj a b : value a = value b -> a = b.
Proof. destruct a, b; simpl; intros H; try reflexivity; discriminate. Qed.

Lemma members_complete m : In m members.
Proof. destruct m; simpl; tauto. Qed.

Lemma by_value_complete v m : eq_int v (value m) = true -> by_value v = Some m.
Proof.
  intros H. unfold by_value.
  destruct (find (fun m0 => eq_int v (value m0)) members) as [m'|] eqn:F.
  - apply find_some in F. destruct F as [_ F].
    f_equal. apply value_inj. eapply eq_int_unique; eauto.
  - exfalso. eapply find_none with (x := m) in F.
    + congruence.
    + apply members_complete.
Qed.

Lemma get_enum_name_form val m :
  is_form val m = true -> get_enum_name val = inr (name m).
Proof.
  destruct val as [m'|v]; simpl.
  - intros H. apply Z.eqb_eq in H. apply value_inj in H. now subst.
  - intros H. apply orb_true_iff in H. destruct H as [H|H].
    + destruct v; simpl in H; try discriminate. apply String.eqb_eq in H. subst.
      now rewrite by_name_name.
    + assert (N : match v with JStr s => by_name s | _ => None end = None).
      { destruct v; simpl in H; try discriminate; reflexivity. }
      rewrite N. now rewrite (by_value_complete _ _ H).
Qed.

Lemma get_enum_name_other val :
  existsb (is_form val) members = false ->
  exists e, get_enum_name val = inl e /\ class_of e = ValueError.
Proof.
  intros H.
  assert (A : forall m, is_form val m = false).
  { intros m. destruct (is_form val m) eqn:E; [|reflexivity].
    assert (existsb (is_form val) members = true).
    { apply existsb_exists. exists m. split; [apply members_complete|assumption]. }
    congruence. }
  destruct val as [m|v]; simpl.
  - specialize (A m). simpl in A. rewrite Z.eqb_refl in A. discriminate.
  - assert (N : match v with JStr s => by_name s | _ => None end = None).
    { destruct v; try reflexivity. destruct (by_name s) as [m|] eqn:B; [|reflexivity].
      apply by_name_sound in B. specialize (A m). simpl in A. subst s.
      rewrite String.eqb_refl in A. discriminate. }
    rewrite N. destruct (by_value v) as [m|] eqn:B.
    + apply by_value_sound in B. specialize (A m). simpl in A. rewrite B in A.
      rewrite orb_true_r in A. discriminate.
    + eexists. split; reflexivity.
Qed.

Lemma post_qrcode_result_named uid val r s n :
  get_enum_name val = inr n ->
  exists rest,
    trace (post_qrcode_result uid val r s)
    = Call (Call_post_qrcode_result uid val)
      :: UrlOpen (ResultApi n [("app", JStr n); ("account", uid)]) 10 :: rest.
Proof.
  intros H. unfold post_qrcode_result. run_cbv. rewrite H.
  cbv [urlencode]. run_all; eexists; reflexivity.
Qed.

Lemma post_qrcode_result_unnamed uid val r s e :
  get_enum_name val = inl e -> class_of e = ValueError ->
  post_qrcode_result uid val r s
  = Run (Raise (Exn ValueError "Invalid app type provided: {app}" [] (Some e))) s
        [Call (Call_post_qrcode_result uid val)].
Proof.
  intros H C. unfold post_qrcode_result. run_cbv. rewrite H.
  cbv [is_a existsb isinstance orb]. rewrite C. reflexivity.
Qed.

(** C10.  The three ways to name a member -- the member, the string of its
    name, a value equal to its value -- resolve to the member's name, which
    is the name in the path and in the form of the exchange request.  Any
    argument that names no member in one of these ways makes
    [post_qrcode_result] raise [ValueError] right after its entry, with no
    request issued. *)
Theorem app_argument_forms (val other : pyobj) (m : AppEnum) (uid : json)
    (r : reply body) (s : app) :
  is_form val m = true ->
  existsb (is_form other) members = false ->
  (get_enum_name (Member m) = inr (name m)
   /\ get_enum_name (Plain (JStr (name m))) = inr (name m)
   /\ get_enum_name (Plain (JInt (value m))) = inr (name m))
  /\ get_enum_name val = inr (name m)
  /\ (exists rest,
        trace (post_qrcode_result uid val r s)
        = Call (Call_post_qrcode_result uid val)
          :: UrlOpen (ResultApi (name m) [("app", JStr (name m)); ("account", uid)]) 10
          :: rest)
  /\ (exists e,
        get_enum_name other = inl e
        /\ class_of e = ValueError
        /\ post_qrcode_result uid other r s
           = Run (Raise (Exn ValueError "Invalid app type provided: {app}" [] (Some e))) s
                 [Call (Call_post_qrcode_result uid other)]).
Proof.
  intros Hval Hother. split; [|split; [|split]].
  - split; [reflexivity|split]; apply get_enum_name_form; simpl.
    + now rewrite String.eqb_refl.
    + now rewrite Z.eqb_refl.
  - now apply get_enum_name_form.
  - apply post_qrcode_result_named. now apply get_enum_name_form.
  - destruct (get_enum_name_other _ Hother) as [e [He Hc]].
    exists e. repeat split; trivial. now apply post_qrcode_result_unnamed.
Qed.

Lemma app_argument_forms_witness :
  get_enum_name (Plain (JInt 6)) = inr "windows"
  /\ exists e,
       post_qrcode_result (JStr "U1") (Plain (JStr "desktop"))
         (Reply (Responds (Document JNull)) undisturbed) (fresh "windows")
       = Run (Raise (Exn ValueError "Invalid app type provided: {app}" [] (Some e)))
             (fresh "windows")
             [Call (Call_post_qrcode_result (JStr "U1") (Plain (JStr "desktop")))].
Proof.
  destruct (app_argument_forms (Plain (JInt 6)) (Plain (JStr "desktop")) windows
              (JStr "U1") (Reply (Responds (Document JNull)) undisturbed)
              (fresh "windows") eq_refl eq_refl)
    as [_ [H [_ [e [_ [_ R]]]]]].
  split; [exact H | exists e; exact R].
Defined.

(** ** The status poll *)

Lemma status_shapes (e : exn) :
  get waiting_response "state" = inr (JBool true)
  /\ status_of waiting_response = Some (JInt 0)
  /\ get (network_error_response e) "state" = inr (JBool false)
  /\ status_of (network_error_response e) = Some (JInt (-99)).
Proof. repeat split. Qed.

Lemma get_qrcode_status_run payload r s :
  match urlencode payload with
  | inr query =>
      exists mid,
        get_qrcode_status payload r s
        = Run (Ok (poll_outcome r)) (after (elapse (took r) s))
              (Call (Call_get_qrcode_status payload) :: UrlOpen (StatusApi query) 5
               :: mid ++ [Return (Json (poll_outcome r))])
        /\ forallb poll_detail (UrlOpen (StatusApi query) 5 :: mid) = true
  | inl e =>
      get_qrcode_status payload r s
      = Run (Raise e) s [Call (Call_get_qrcode_status payload)]
  end.
Proof.
  unfold get_qrcode_status, poll_outcome.
  destruct (urlencode payload) as [e|query]; run_cbv; [reflexivity|].
  cbv [is_a existsb loads]. run_all.
  all: try discriminate; try congruence.
  all: try (exists []; split; reflexivity).
  all: eexists [_]; split; reflexivity.
Qed.



(** ** Every step ends, and the clock does not go back *)

Lemma steady_ret {A} (a : A) : steady (ret a).
Proof. intros s. simpl. split; [discriminate|lia]. Qed.

Lemma steady_raise {A} (e : exn) : steady (@raise A e).
Proof. intros s. simpl. split; [discriminate|lia]. Qed.

Lemma steady_bind {A B} (m : M A) (k : A -> M B) :
  steady m -> (forall a, steady (k a)) -> steady (bind m k).
Proof.
  intros Hm Hk s. unfold bind. specialize (Hm s).
  destruct (m s) as [[a|e|] s' t]; simpl in *.
  - specialize (Hk a s'). rewrite ending_extend, after_extend. split; [tauto|lia].
  - split; [discriminate|tauto].
  - tauto.
Qed.

Lemma steady_lift {A} (f : fallible A) : steady (lift f).
Proof. destruct f; [apply steady_raise|apply steady_ret]. Qed.

Lemma steady_gets {A} (f : app -> A) : steady (gets f).
Proof. intros s. simpl. split; [discriminate|lia]. Qed.

Lemma steady_emit (e : event) : steady (emit e).
Proof. intros s. simpl. split; [discriminate|lia]. Qed.

Lemma steady_modify (f : app -> app) :
  (forall s, now s <= now (f s)) -> steady (modify f).
Proof. intros H s. simpl. split; [discriminate|apply H]. Qed.

Lemma steady_advance (ms : Z) : 0 <= ms -> steady (advance ms).
Proof. intros H. apply steady_modify. intros s. simpl. lia. Qed.

Lemma steady_dispatch {A} (e : exn) (clauses : list (clause A)) :
  Forall (fun c => forall x, steady (snd c x)) clauses -> steady (dispatch e clauses).
Proof.
  induction 1 as [|[takes handler] rest H _ IH]; simpl.
  - apply steady_raise.
  - destruct (takes e); [apply H|apply IH].
Qed.

Lemma steady_try_except {A} (body : M A) (clauses : list (clause A)) :
  steady body -> Forall (fun c => forall x, steady (snd c x)) clauses ->
  steady (try_except body clauses).
Proof.
  intros Hb Hc s. unfold try_except. specialize (Hb s).
  destruct (body s) as [[a|e|] s' t]; simpl in *; trivial.
  rewrite ending_extend, after_extend.
  destruct (steady_dispatch e clauses Hc s'). split; [tauto|lia].
Qed.

Create HintDb steady.
#[local] Hint Resolve steady_ret steady_raise steady_lift steady_gets
  steady_emit : steady.

(** Setters of fields other than the clock. *)
Ltac steady_setter := apply steady_modify; intros ?; simpl; lia.

(** Takes a computation apart along its binds, its branches and its
    handlers. *)
Ltac steady_step :=
  lazymatch goal with
  | |- steady (bind _ _) => apply steady_bind; [|intros ?]
  | |- steady (try_except _ _) => apply steady_try_except
  | |- Forall _ (_ :: _) => apply Forall_cons; [simpl; intros ?|]
  | |- Forall _ [] => apply Forall_nil
  | |- steady (if ?b then _ else _) => destruct b
  | |- steady (match ?x with _ => _ end) => destruct x
  | |- steady (advance _) => apply steady_advance; lia
  | |- steady (modify _) => steady_setter
  | |- _ => solve [auto with steady]
  end.

Ltac steady_all := repeat steady_step.

Lemma steady_interfere (i : interrupt) : steady (interfere i).
Proof. unfold interfere. steady_all. Qed.

Lemma steady_elapse (w : wait) : steady (elapse w).
Proof.
  unfold elapse. apply steady_bind; [apply steady_advance; lia|intros _].
  apply steady_interfere.
Qed.

Lemma steady_is_set : steady is_set.
Proof. unfold is_set. steady_all. Qed.

Lemma steady_urlopen {A} (e : endpoint) (timeout : Z) (r : reply A) :
  steady (urlopen e timeout r).
Proof.
  unfold urlopen. apply steady_bind; [auto with steady|intros _].
  apply steady_bind; [apply steady_elapse|intros _]. steady_all.
Qed.

Lemma steady_sleep (seconds : Z) (w : wait) : 0 <= seconds -> steady (sleep seconds w).
Proof.
  intros H. unfold sleep. apply steady_bind; [auto with steady|intros _].
  apply steady_bind; [apply steady_advance; lia|intros _]. apply steady_elapse.
Qed.

Lemma steady_traced {A} (c : api_call) (wrap : A -> retval) (m : M A) :
  steady m -> steady (traced c wrap m).
Proof. intros H. unfold traced. steady_all. Qed.

#[local] Hint Resolve steady_interfere steady_elapse steady_is_set
  steady_urlopen steady_traced : steady.

Lemma steady_get_qrcode_token r : steady (get_qrcode_token r).
Proof. unfold get_qrcode_token. apply steady_traced. steady_all. Qed.

Lemma steady_get_qrcode_status payload r : steady (get_qrcode_status payload r).
Proof. unfold get_qrcode_status. apply steady_traced. steady_all. Qed.

Lemma steady_post_qrcode_result uid a r : steady (post_qrcode_result uid a r).
Proof. unfold post_qrcode_result. apply steady_traced. steady_all. Qed.

Lemma steady_get_qrcode uid r : steady (get_qrcode uid r).
Proof. unfold get_qrcode. apply steady_traced. steady_all. Qed.

Lemma steady_update_status t : steady (update_status t).
Proof. unfold update_status. auto with steady. Qed.

Lemma steady_show_error m : steady (show_error m).
Proof. unfold show_error, update_status. steady_all. Qed.

Lemma steady_display_qr_code b o : steady (display_qr_code b o).
Proof. unfold display_qr_code, show_error, update_status. steady_all. Qed.

Lemma steady_display_cookies c : steady (display_cookies c).
Proof. unfold display_cookies. steady_all. Qed.

#[local] Hint Resolve steady_get_qrcode_token steady_get_qrcode_status
  steady_post_qrcode_result steady_get_qrcode steady_update_status
  steady_show_error steady_display_qr_code steady_display_cookies : steady.

Lemma steady_fetch_cookies uid a r : steady (fetch_cookies uid a r).
Proof. unfold fetch_cookies, show_info. steady_all. Qed.

#[local] Hint Resolve steady_fetch_cookies : steady.

Lemma steady_on_status resp uid a r : steady (on_status resp uid a r).
Proof. unfold on_status. steady_all. Qed.

Lemma steady_acquire_token env : steady (acquire_token env).
Proof. unfold acquire_token, set_qrcode_token. steady_all. Qed.

Lemma steady_show_qrcode env uid : steady (show_qrcode env uid).
Proof. unfold show_qrcode. steady_all. Qed.

#[local] Hint Resolve steady_on_status steady_acquire_token steady_show_qrcode : steady.

(** A turn of the loop that ends had not timed out when it began, and it
    slept its two seconds. *)
Lemma sleep_run seconds w s :
  ending (sleep seconds w s) = Ok tt
  /\ now (after (sleep seconds w s)) = now s + 1000 * seconds + Z.of_N (extra w).
Proof. unfold sleep. run_all; split; reflexivity. Qed.

Lemma loop_body_clock t uid a r start s :
  let x := loop_body t uid a r start s in
  ending x <> Diverge
  /\ forall c, ending x = Ok c ->
       now s - start <= 1000 * timeout_seconds /\ now s + 2000 <= now (after x).
Proof.
  intros x. subst x. remember (loop_body t uid a r start s) as x eqn:E.
  unfold loop_body in E. unfold bind at 1 in E. unfold monotonic at 1, gets at 1 in E.
  cbv beta iota in E.
  destruct (Z.gtb_spec (now s - start) (1000 * timeout_seconds)) as [G|G].
  - subst x. simpl. split; [discriminate|intros c H; discriminate].
  - set (rest := fun _ : unit => _) in E.
    assert (R : forall u, steady (rest u)).
    { intros u. unfold rest. unfold update_status. steady_all.
      apply steady_sleep. lia. }
    unfold bind in E. destruct (sleep_run 2 (nap t) s) as [E1 N].
    destruct (sleep 2 (nap t) s) as [e1 s1 t1]. simpl in E1, N. subst e1.
    destruct (R tt s1) as [H1 H2]. subst x. rewrite !ending_extend, !after_extend.
    split; [exact H1|]. intros c _. split; [exact G|]. lia.
Qed.

Lemma steady_halting {A} (m : M A) : steady m -> halting m.
Proof. intros H s. apply H. Qed.

Lemma halting_bind {A B} (m : M A) (k : A -> M B) :
  halting m -> (forall a, halting (k a)) -> halting (bind m k).
Proof.
  intros Hm Hk s. unfold bind. specialize (Hm s).
  destruct (m s) as [[a|e|] s' t]; simpl in *.
  - rewrite ending_extend. apply Hk.
  - discriminate.
  - tauto.
Qed.

Lemma interfere_now i s : now (after (interfere i s)) = now s.
Proof. reflexivity. Qed.

(** With [fuel] turns left and the clock at [now s], the loop ends if the
    turns left would take it past the timeout. *)
Lemma poll_loop_halts ticks uid a r start :
  forall fuel i s,
    1000 * timeout_seconds < now s - start + 2000 * Z.of_nat fuel ->
    ending (poll_loop (S fuel) ticks i uid a r start s) <> Diverge.
Proof.
  induction fuel as [|fuel IH]; intros i s H.
  all: cbn [poll_loop]; unfold bind at 1.
  all: pose proof (interfere_now (at_head (ticks i)) s) as Hn.
  all: destruct (steady_interfere (at_head (ticks i)) s) as [Hi _].
  all: destruct (interfere (at_head (ticks i)) s) as [[[]|e|] s0 t0];
    simpl in Hn, Hi; try discriminate; try tauto.
  all: rewrite ending_extend; unfold bind at 1, gets at 1.
  all: rewrite ending_extend; unfold bind at 1.
  all: assert (Hs : forall s', now (after ((if polling_active s0 then is_set else ret false) s')) = now s'
                            /\ exists b, ending ((if polling_active s0 then is_set else ret false) s') = Ok b)
    by (intros s'; destruct (polling_active s0); unfold is_set; run_all; split; eauto).
  all: destruct (Hs s0) as [Hs1 [b Hs2]]; clear Hs.
  all: destruct ((if polling_active s0 then is_set else ret false) s0) as [e1 s1 t1];
    simpl in Hs1, Hs2; subst e1; rewrite ending_extend.
  all: destruct (polling_active s0 && negb b);
    [|apply (steady_interfere (at_exit (ticks i)) s1)].
  all: unfold bind; destruct (loop_body_clock (ticks i) uid a r start s1) as [L1 L2].
  all: destruct (loop_body (ticks i) uid a r start s1) as [[c|e|] s2 t2];
    simpl in L1, L2; try discriminate; try tauto.
  all: rewrite ending_extend; destruct (L2 c eq_refl) as [L3 L4].
  all: destruct c; [|apply (steady_interfere (at_exit (ticks i)) s2)].
  - exfalso. simpl in H. lia.
  - apply IH. lia.
Qed.

Lemma ending_bind {A B} (m : M A) (k : A -> M B) s :
  ending (m s) <> Diverge -> (forall a s', ending (k a s') <> Diverge) ->
  ending (bind m k s) <> Diverge.
Proof.
  intros Hm Hk. unfold bind. destruct (m s) as [[a|e|] s' t]; simpl in *.
  - rewrite ending_extend. apply Hk.
  - discriminate.
  - tauto.
Qed.

Lemma halting_poll_for_status env uid a : halting (poll_for_status env uid a).
Proof.
  intros s. unfold poll_for_status.
  apply ending_bind; [apply steady_update_status|intros _ s1].
  unfold bind at 1, monotonic, gets. cbv beta iota. rewrite ending_extend.
  apply ending_bind.
  - change max_turns with (S 91).
    apply (poll_loop_halts (ticks env) uid a (exchange env) (now s1) 91%nat 0%nat s1).
    unfold timeout_seconds. lia.
  - intros _ s3. apply steady_halting. steady_all.
Qed.

Lemma halting_login_steps env a : halting (login_steps env a).
Proof.
  unfold login_steps.
  apply halting_bind; [apply steady_halting; auto with steady|intros uid].
  apply halting_bind; [apply steady_halting; auto with steady|intros _].
  apply halting_poll_for_status.
Qed.

(** However the steps of the login end, the worker returns with the guard
    cleared. *)
Lemma worker_returns env s :
  ending (_login_thread_func env s) = Ok tt
  /\ polling_active (after (_login_thread_func env s)) = false.
Proof.
  unfold _login_thread_func. destruct s as [n p st q c v th]. run_cbv.
  pose proof (halting_login_steps env c) as H.
  match goal with
  | |- context [login_steps env c ?s0] =>
      specialize (H s0); destruct (login_steps env c s0) as [[[]|e|] [] t]
  end; run_cbv; [split; reflexivity|split; reflexivity|].
  simpl in H. tauto.
Qed.

(** What a computation writes first stays in front. *)
Lemma trace_bind {A B} (m : M A) (k : A -> M B) s :
  exists rest, trace (bind m k s) = trace (m s) ++ rest.
Proof.
  unfold bind. destruct (m s) as [[a|e|] s' t]; simpl.
  - exists (trace (k a s')). apply trace_extend.
  - exists []. now rewrite app_nil_r.
  - exists []. now rewrite app_nil_r.
Qed.

Lemma trace_emit_bind {B} (e : event) (k : unit -> M B) s :
  trace (bind (emit e) k s) = e :: trace (k tt s).
Proof. unfold bind, emit. now rewrite trace_extend. Qed.

Lemma login_steps_asks_for_token env a s :
  existsb is_token_call (trace (login_steps env a s)) = true.
Proof.
  unfold login_steps. destruct (trace_bind (acquire_token env)
    (fun uid => show_qrcode env uid ;; poll_for_status env uid a) s) as [rest ->].
  rewrite existsb_app. apply orb_true_iff. left.
  unfold acquire_token, update_status. rewrite trace_emit_bind.
  match goal with
  | |- context [trace (bind ?m ?k s)] => destruct (trace_bind m k s) as [rest1 ->]
  end.
  unfold get_qrcode_token, traced. rewrite trace_emit_bind. reflexivity.
Qed.

(** C9.  The worker always returns, and when it does -- after a success, an
    error of any step, an expired or cancelled code, a timeout, or a stop
    request -- [polling_active] is false; a start request made then is not
    turned away by the guard: with a device class selected, it asks for a
    token. *)
Theorem guard_reset_after_worker (env next : environment) (s : app) :
  let done := _login_thread_func env s in
  ending done = Ok tt
  /\ polling_active (after done) = false
  /\ (String.eqb (selected_app_type_var (after done)) "" = false ->
      existsb is_token_call (trace (start_login_process next (after done))) = true).
Proof.
  cbv zeta. destruct (worker_returns env s) as [E P]. split; [exact E|split; [exact P|]].
  intros Hsel. destruct (after (_login_thread_func env s)) as [n p st q c v th].
  simpl in P, Hsel. subst p.
  unfold start_login_process, _login_thread_func.
  run_cbv. rewrite Hsel. run_cbv.
  match goal with
  | |- context [login_steps next v ?s0] =>
      pose proof (login_steps_asks_for_token next v s0) as T;
      destruct (login_steps next v s0) as [[[]|e|] [] t]
  end; run_cbv; simpl in T; simpl; rewrite ?existsb_app, T; reflexivity.
Qed.

(** ** One poll outcome, one turn *)

Ltac split_flags H :=
  repeat (apply orb_false_iff in H; let H' := fresh in destruct H as [H' H]).

(** Closes a case whose assumptions on truth values contradict each other. *)
Ltac truth_clash :=
  solve [ exfalso;
          repeat match goal with
                 | H : context [truthy ?v] |- _ => destruct (truthy v)
                 end;
          simpl in *; congruence ].

Lemma on_status_unknown status_resp status uid a r s :
  status_of status_resp = Some status ->
  recognized status = false ->
  let x := on_status status_resp uid a r s in
  ending x = Ok Continue
  /\ after x = s
  /\ if accepted status_resp
     then exists status_data,
            trace x = [Ui (UpdateStatus (St_unknown_status status status_data));
                       Printed (Warn_unknown_status status_resp)]
     else exists text, trace x = [Ui (UpdateStatus text)].
Proof.
  intros H1 H2 x. subst x. unfold status_of in H1.
  destruct (get_default status_resp "data" (JDict [])) as [|sd] eqn:D; try discriminate.
  destruct (get sd "status") as [|st] eqn:S; try discriminate.
  injection H1 as ->.
  unfold recognized, recognized_codes in H2. cbv [existsb] in H2. split_flags H2.
  assert (G : exists state, get status_resp "state" = inr state
                            /\ forall k v, exists m, get_default status_resp k v = inr m).
  { destruct status_resp; try discriminate. eexists. split; [reflexivity|].
    intros k v. eexists. reflexivity. }
  destruct G as [state [G1 G2]].
  destruct (G2 "msg" JNull) as [m1 M1]. fold (get status_resp "msg") in M1.
  destruct (G2 "error" (JStr "polling the status failed")) as [m2 M2].
  destruct (G2 "msg" (JStr "")) as [m3 M3]. clear G2.
  assert (M4 : exists m, get_default sd "msg" (JStr "") = inr m).
  { destruct sd; try discriminate. eexists. reflexivity. }
  destruct M4 as [m4 M4].
  unfold on_status, accepted, err_msg_of.
  destruct (truthy status_resp); run_cbv; [|repeat split; eexists; reflexivity].
  rewrite G1. run_cbv. destruct (truthy state); run_cbv.
  - rewrite D. run_cbv. rewrite S. run_cbv. rewrite M4. run_cbv.
    repeat match goal with H : eq_int status _ = false |- _ => rewrite H; clear H end.
    run_cbv. repeat split. eexists. reflexivity.
  - rewrite M1. run_cbv. destruct (truthy m1); run_cbv.
    + repeat split. eexists. reflexivity.
    + rewrite M2. run_cbv. repeat split. eexists. reflexivity.
Qed.

(** C6.  A poll response whose status code is none of 0, 1, 2, -1, -2, -99
    is handled without leaving the loop and without touching the
    application: the turn goes on, nothing is raised, nothing is asked of
    the remote service, no error is reported, and the window gets exactly
    one status update -- for a success response the "unknown status" line,
    with a log line beside it. *)
Theorem unknown_status_is_advisory (status_resp status uid : json) (a : string)
    (r : reply body) (s : app) :
  status_of status_resp = Some status ->
  recognized status = false ->
  let x := on_status status_resp uid a r s in
  ending x = Ok Continue
  /\ after x = s
  /\ List.length (filter is_status_update (trace x)) = 1%nat
  /\ existsb is_fatal_box (trace x) = false
  /\ existsb is_remote (trace x) = false
  /\ (accepted status_resp = true ->
      exists status_data,
        trace x = [Ui (UpdateStatus (St_unknown_status status status_data));
                   Printed (Warn_unknown_status status_resp)]).
Proof.
  intros H1 H2 x.
  destruct (on_status_unknown status_resp status uid a r s H1 H2) as [E [A T]].
  fold x in E, A, T. split; [exact E|split; [exact A|]].
  destruct (accepted status_resp).
  - destruct T as [d T]. rewrite T. repeat split. intros _. now exists d.
  - destruct T as [t T]. rewrite T. repeat split. discriminate.
Qed.

Lemma on_status_network_error e uid a r s :
  on_status (network_error_response e) uid a r s
  = Run (Ok Continue) s [Ui (UpdateStatus (St_error (str e)))].
Proof. reflexivity. Qed.

(** A turn whose poll fails in transit: the response is the network-error
    response, the window gets its error line, and the turn is over after the
    two seconds of its own sleep; the three seconds more are slept only when
    [get_qrcode_status] itself raises, which it does for a payload that
    cannot be encoded. *)
Lemma transient_error_turn t uid a r start s e :
  now s - start <= 1000 * timeout_seconds ->
  stop_event s = false ->
  stop_set (meanwhile (nap t)) = false ->
  stop_set (meanwhile (took (poll t))) = false ->
  answer (poll t) = Fails e ->
  isinstance e TimeoutError = false ->
  let x := loop_body t uid a r start s in
  ending x = Ok Continue
  /\ match urlencode (qrcode_token s) with
     | inr query =>
         exists w,
           trace x = [Sleep 2; Call (Call_get_qrcode_status (qrcode_token s));
                      UrlOpen (StatusApi query) 5; Printed w;
                      Return (Json (network_error_response e));
                      Ui (UpdateStatus (St_error (str e)))]
     | inl raised =>
         trace x = [Sleep 2; Call (Call_get_qrcode_status (qrcode_token s));
                    Ui (UpdateStatus (St_poll_error raised)); Sleep 3]
     end.
Proof.
  intros Ht Hs Hn Hp Ha He x. subst x.
  unfold loop_body, get_qrcode_status.
  destruct s as [n p st q c v th]. cbn [now stop_event] in Ht, Hs. subst st.
  run_cbv. rewrite Hn.
  destruct (Z.gtb_spec (n - start) (1000 * timeout_seconds)) as [G|_]; [lia|].
  run_cbv. destruct (urlencode q) as [raised|query]; run_cbv; [split; reflexivity|].
  rewrite Ha. cbv [is_a existsb]. run_cbv. rewrite He, Hp.
  destruct (isinstance e URLError); [|destruct (isinstance e HTTPError)].
  all: run_cbv; rewrite on_status_network_error; run_cbv; split; eauto.
Qed.

(** ** A rule for the polling loop *)

(** A property [fin] of the trace and the ending of a run holds of the loop
    when it holds of every last turn, and is kept when a turn that goes on,
    whose trace is [calm], comes before. *)
Section LoopRule.

Variables (ticks : nat -> tick) (uid : json) (a : string) (r : reply body)
  (start : Z).
Variable calm : list event -> Prop.
Variable fin : result unit -> list event -> Prop.

Hypothesis fin_calm : forall d e t, calm d -> fin e t -> fin e (d ++ t).
Hypothesis fin_diverge : fin Diverge [].
Hypothesis fin_exit : fin (Ok tt) [] /\ fin (Ok tt) [Stop_seen].
Hypothesis fin_body : forall t s,
  let x := loop_body t uid a r start s in
  match ending x with
  | Ok Continue => calm (trace x)
  | Ok Break => fin (Ok tt) (trace x)
  | Raise e => fin (Raise e) (trace x)
  | Diverge => fin Diverge (trace x)
  end.

Lemma poll_loop_rule : forall fuel i s,
  let x := poll_loop fuel ticks i uid a r start s in
  fin (ending x) (trace x).
Proof.
  induction fuel as [|fuel IH]; intros i s; cbv zeta; [exact fin_diverge|].
  cbn [poll_loop]. run_cbv. destruct s as [n p st q c v th]. run_cbv.
  destruct fin_exit as [X0 X1].
  destruct (ui_finished (at_head (ticks i))); destruct p; run_cbv; try exact X0.
  all: destruct st; run_cbv; try exact X1.
  all: destruct (stop_set (at_head (ticks i))); run_cbv; try exact X1.
  all: match goal with
       | |- context [loop_body ?t uid a r start ?s0] =>
           pose proof (fin_body t s0) as B; cbv zeta in B;
           destruct (loop_body t uid a r start s0) as [[[|]|e|] s1 t1]
       end; cbn [ending trace] in B; run_cbv; rewrite ?app_nil_r; try exact B.
  all: match goal with
       | |- context [poll_loop ?f ticks ?j uid a r start ?s0] =>
           pose proof (IH j s0) as L; cbv zeta in L;
           destruct (poll_loop f ticks j uid a r start s0) as [e2 s2 t2]
       end; cbn [ending trace] in L; run_cbv.
  all: now apply fin_calm.
Qed.

End LoopRule.

(** ** Shapes of the traces *)

Lemma forallb_existsb {A} (p q : A -> bool) (l : list A) :
  (forall x, p x = true -> q x = false) ->
  forallb p l = true -> existsb q l = false.
Proof.
  intros H. induction l as [|x l IH]; simpl; [reflexivity|].
  intros F. apply andb_true_iff in F. destruct F as [F1 F2].
  now rewrite (H x F1), IH.
Qed.

Lemma forallb_weaken {A} (p q : A -> bool) (l : list A) :
  (forall x, p x = true -> q x = true) ->
  forallb p l = true -> forallb q l = true.
Proof.
  intros H. induction l as [|x l IH]; simpl; [reflexivity|].
  intros F. apply andb_true_iff in F. destruct F as [F1 F2].
  now rewrite (H x F1), IH.
Qed.

(** Decides a relation between two classes of events by cases. *)
Ltac by_event :=
  let e := fresh "e" in
  intros e; destruct e;
  repeat match goal with
         | x : api_call |- _ => destruct x
         | x : retval |- _ => destruct x
         | x : endpoint |- _ => destruct x
         | x : ui_event |- _ => destruct x
         | x : status_text |- _ => destruct x
         | x : (exn + string)%type |- _ => destruct x
         end;
  simpl; intros; try reflexivity; try discriminate.

Lemma fetch_cookies_shape uid a r s :
  let x := fetch_cookies uid a r s in
  exists post,
    trace x = Ui (UpdateStatus St_confirmed)
              :: Call (Call_post_qrcode_result uid (Plain (JStr a))) :: post
    /\ forallb exchange_tail post = true
    /\ existsb is_stop_seen post = false
    /\ match ending x with
       | Ok Break => existsb shows_cookies post = true
       | Raise _ => existsb shows_cookies post = false
                    /\ existsb says_success post = false
       | _ => False
       end.
Proof.
  unfold fetch_cookies, post_qrcode_result, err_msg_of.
  run_all.
  all: eexists; split; [reflexivity|split; [reflexivity|split; [reflexivity|]]].
  all: try reflexivity; split; reflexivity.
Qed.

Lemma on_status_shape resp uid a r s :
  let x := on_status resp uid a r s in
  (forallb advisory (trace x) = true
   /\ match ending x with Ok Continue | Raise _ => True | _ => False end)
  \/ (reports 2 resp = true /\ x = fetch_cookies uid a r s).
Proof.
  unfold on_status, reports, status_of, err_msg_of.
  run_all.
  all: try (left; split; [reflexivity|exact I]).
  all: right; split; [|reflexivity].
  all: repeat match goal with
              | H : negb ?b = false |- _ => destruct b; try discriminate; clear H
              end; reflexivity.
Qed.

Lemma loop_body_shape t uid a r start s :
  let x := loop_body t uid a r start s in
  (trace x = [] /\ exists e, ending x = Raise e)
  \/ (trace x = [Sleep 2; Stop_seen] /\ ending x = Ok Break)
  \/ (exists payload e,
        trace x = [Sleep 2; Call (Call_get_qrcode_status payload);
                   Ui (UpdateStatus (St_poll_error e)); Sleep 3]
        /\ ending x = Ok Continue)
  \/ exists payload mid resp,
       forallb poll_detail mid = true
       /\ ((trace x = Sleep 2 :: Call (Call_get_qrcode_status payload) :: mid
                      ++ [Return (Json resp); Stop_seen]
            /\ ending x = Ok Break)
           \/ exists s',
                trace x = Sleep 2 :: Call (Call_get_qrcode_status payload) :: mid
                          ++ Return (Json resp) :: trace (on_status resp uid a r s')
                /\ ending x = ending (on_status resp uid a r s')).
Proof.
  cbv zeta. unfold loop_body. destruct s as [n p st q c v th]. run_cbv.
  destruct (n - start >? 1000 * timeout_seconds); run_cbv;
    [left; split; [reflexivity|eexists; reflexivity]|right].
  destruct (st || stop_set (meanwhile (nap t))) eqn:N.
  - left. unfold orb in N. rewrite N. run_cbv. split; reflexivity.
  - right. unfold orb in N. rewrite N. run_cbv.
    match goal with
    | |- context [get_qrcode_status q ?rp ?s0] =>
        pose proof (get_qrcode_status_run q rp s0) as G
    end.
    destruct (urlencode q) as [e|query].
    + left. rewrite G. run_cbv. exists q, e. split; reflexivity.
    + right. destruct G as [mid [G F]]. rewrite G. run_cbv.
      exists q, (UrlOpen (StatusApi query) 5 :: mid), (poll_outcome (poll t)).
      split; [exact F|].
      destruct (stop_set (meanwhile (took (poll t)))); run_cbv.
      * left. split; [|reflexivity]. now rewrite ?app_nil_r, <- ?app_assoc.
      * right.
        match goal with
        | |- context [on_status ?resp uid a r ?s0] =>
            exists s0; destruct (on_status resp uid a r s0) as [e1 s1 t1]
        end.
        run_cbv. split; [|reflexivity]. now rewrite ?app_nil_r, <- ?app_assoc.
Qed.

(** ** Anatomy of a session *)

Lemma acquire_token_shape env s :
  let x := acquire_token env s in
  forallb token_phase (trace x) = true
  /\ ending x <> Diverge
  /\ stop_event (after x) = stop_event s || stop_set (meanwhile (took (token env))).
Proof.
  cbv zeta. unfold acquire_token, get_qrcode_token. destruct s as [n p st q c v th].
  run_all; repeat split; try reflexivity; discriminate.
Qed.

Lemma show_qrcode_run env uid s :
  match answer (image env) with
  | Responds b =>
      show_qrcode env uid s
      = Run (Ok tt) (after (elapse (took (image env)) s)) (image_shown env uid b)
  | Fails e =>
      exists raised,
        show_qrcode env uid s
        = Run (Raise raised) (after (elapse (took (image env)) s))
              [Ui (UpdateStatus St_downloading_image); Call (Call_get_qrcode uid);
               UrlOpen (ImageApi uid) 10]
  end.
Proof.
  unfold show_qrcode, get_qrcode, image_shown. run_cbv.
  destruct (answer (image env)) as [b|e]; run_cbv.
  - destruct (image_opens env); reflexivity.
  - destruct (is_a transport_errors e); run_cbv; eexists; reflexivity.
Qed.

Lemma image_shown_prelude env uid b : forallb prelude (image_shown env uid b) = true.
Proof. unfold image_shown. destruct (image_opens env); reflexivity. Qed.

(** The steps of a login either fail before the polling phase, in the token
    step or at the image, or reach the loop, and then end as the loop does,
    after "stopped" if the stop event is set by then. *)
Lemma login_steps_anatomy env a s :
  let x := login_steps env a s in
  (forallb token_phase (trace x) = true /\ exists e, ending x = Raise e)
  \/ (exists e raised pre uid,
        answer (image env) = Fails e
        /\ ending x = Raise raised
        /\ forallb token_phase pre = true
        /\ trace x = pre ++ [Ui (UpdateStatus St_downloading_image);
                             Call (Call_get_qrcode uid); UrlOpen (ImageApi uid) 10])
  \/ exists b pre uid s1,
       answer (image env) = Responds b
       /\ forallb token_phase pre = true
       /\ stop_event s1 = stop_event s || stop_set (meanwhile (took (token env)))
                          || stop_set (meanwhile (took (image env)))
       /\ let l := poll_loop max_turns (ticks env) 0 uid a (exchange env) (now s1) s1 in
          exists tail,
            trace x = pre ++ image_shown env uid b
                      ++ Ui (UpdateStatus St_waiting_for_scan) :: trace l ++ tail
            /\ ending x = ending l
            /\ (tail = []
                /\ (ending l = Ok tt -> stop_event (after l) = false)
                \/ tail = [Stop_seen; Ui (UpdateStatus St_stopped)]
                   /\ ending l = Ok tt /\ stop_event (after l) = true).
Proof.
  cbv zeta. remember (login_steps env a s) as x eqn:X.
  unfold login_steps in X. unfold bind at 1 in X.
  destruct (acquire_token_shape env s) as [T [D S]].
  destruct (acquire_token env s) as [[uid|e|] s0 t0];
    cbn [ending after trace] in *.
  2: { left. subst x. split; [exact T|]. now exists e. }
  2: { tauto. }
  right. unfold bind at 1 in X.
  pose proof (show_qrcode_run env uid s0) as Q.
  destruct (answer (image env)) as [b|e].
  - right. rewrite Q in X. cbn [extend] in X.
    exists b, t0, uid, (after (elapse (took (image env)) s0)).
    split; [reflexivity|split; [exact T|]]. split.
    { destruct s0. cbn in S |- *. now rewrite S. }
    remember (after (elapse (took (image env)) s0)) as s1 eqn:E1. clear E1 Q.
    unfold poll_for_status in X. destruct s1 as [n1 p1 st1 q1 c1 v1 th1].
    run_cbv_in X. cbn [now].
    destruct (poll_loop max_turns (ticks env) 0 uid a (exchange env) n1
                {| now := n1; polling_active := p1; stop_event := st1;
                   qrcode_token := q1; current_app_type := c1;
                   selected_app_type_var := v1; thread_alive := th1 |})
      as [[[]|e|] [n2 p2 [|] q2 c2 v2 th2] t1]; run_cbv_in X; subst x;
      cbn [ending after trace stop_event].
    1: exists [Stop_seen; Ui (UpdateStatus St_stopped)].
    2-6: exists [].
    all: rewrite <- ?app_assoc; cbn [List.app]; rewrite <- ?app_assoc, ?app_nil_r.
    all: split; [reflexivity|split; [reflexivity|]].
    1: right; repeat split.
    all: left; split; [reflexivity|]; try reflexivity; discriminate.
  - left. destruct Q as [raised Q]. rewrite Q in X. cbn [extend] in X. subst x.
    exists e, raised, t0, uid. repeat split; trivial.
Qed.

(** The worker around the steps: the error box when they raise, and the
    scheduled reset of the window at the end. *)
Lemma worker_anatomy env s :
  exists s0,
    let y := login_steps env (current_app_type s) s0 in
    let x := _login_thread_func env s in
    stop_event s0 = stop_event s
    /\ ending y <> Diverge
    /\ trace x = trace y
                 ++ match ending y with
                    | Raise e => [Ui (ErrorBox (inl e)); Ui (UpdateStatus (St_error_line (inl e)))]
                    | _ => []
                    end
                 ++ [Ui (After_set_ui_state finished)].
Proof.
  unfold _login_thread_func. destruct s as [n p st q c v th]. run_cbv.
  match goal with
  | |- context [login_steps env c ?s1] => exists s1
  end.
  cbv zeta. split; [reflexivity|]. split; [apply halting_login_steps|].
  match goal with
  | |- context [login_steps env c ?s1] =>
      pose proof (halting_login_steps env c s1) as H;
      destruct (login_steps env c s1) as [[[]|e|] [] t]
  end; run_cbv; rewrite <- ?app_assoc; try reflexivity.
  exfalso. now apply H.
Qed.

(** ** Once the stop event is seen *)












Lemma token_phase_prelude t : forallb token_phase t = true -> forallb prelude t = true.
Proof. apply forallb_weaken. by_event. Qed.


Lemma prelude_no_poll t : forallb prelude t = true -> existsb is_poll t = false.
Proof. apply forallb_existsb. by_event. Qed.


Lemma token_phase_no_image t : forallb token_phase t = true -> existsb is_image_call t = false.
Proof. apply forallb_existsb. by_event. Qed.






(** ** The image and the polling phase *)

Lemma prelude_no_polling_phase t :
  forallb prelude t = true -> existsb enters_polling t = false.
Proof. apply forallb_existsb. by_event. Qed.

Lemma epilogue_fatal e :
  existsb is_fatal_box (epilogue e) = match e with Raise _ => true | _ => false end.
Proof. destruct e; reflexivity. Qed.

Lemma epilogue_no_polling e :
  existsb enters_polling (epilogue e) = false /\ existsb is_poll (epilogue e) = false.
Proof. destruct e; split; reflexivity. Qed.

(** C2, amended.  When the image cannot be fetched, the session is over: the
    worker never enters the polling phase and makes no status poll, and
    after a token was issued the failure is reported in the error box.  When
    the image arrives after a token was issued, the polling phase is
    entered, also when the image cannot be opened for display, which is
    reported and nothing more. *)
Theorem image_fetch_failure_aborts (env : environment) (s : app) :
  let x := _login_thread_func env s in
  match answer (image env) with
  | Fails _ =>
      existsb enters_polling (trace x) = false
      /\ existsb is_poll (trace x) = false
      /\ (existsb is_image_call (trace x) = true ->
          existsb is_fatal_box (trace x) = true)
  | Responds _ =>
      existsb is_image_call (trace x) = true ->
      existsb enters_polling (trace x) = true
      /\ (image_opens env = false ->
          In (Ui (ErrorBox (inr "cannot display the QR code: {e}"))) (trace x))
  end.
Proof.
  intros x. subst x.
  destruct (worker_anatomy env s) as [s0 [_ [_ T]]]. cbv zeta in T. rewrite T. clear T.
  fold (epilogue (ending (login_steps env (current_app_type s) s0))).
  destruct (epilogue_no_polling (ending (login_steps env (current_app_type s) s0)))
    as [N1 N2].
  destruct (login_steps_anatomy env (current_app_type s) s0)
    as [[P [e E]]|[[e [raised [pre [uid [A [E [P T1]]]]]]]|[b [pre [uid [s1 [A [P [_ L]]]]]]]]].
  - assert (I : existsb is_image_call
                  (trace (login_steps env (current_app_type s) s0)
                   ++ epilogue (ending (login_steps env (current_app_type s) s0))) = false).
    { rewrite existsb_app, (token_phase_no_image _ P), E. reflexivity. }
    rewrite I, !existsb_app, N1, N2.
    rewrite (prelude_no_polling_phase _ (token_phase_prelude _ P)).
    rewrite (prelude_no_poll _ (token_phase_prelude _ P)).
    destruct (answer (image env)); [discriminate|repeat split; discriminate].
  - rewrite A. rewrite !existsb_app, N1, N2, epilogue_fatal, E, T1, !existsb_app.
    rewrite (prelude_no_polling_phase _ (token_phase_prelude _ P)).
    rewrite (prelude_no_poll _ (token_phase_prelude _ P)).
    repeat split. intros _. now rewrite orb_true_r.
  - rewrite A. intros _. cbv zeta in L. destruct L as [tail [T1 _]]. rewrite T1. split.
    + rewrite !existsb_app. cbn [existsb enters_polling]. now rewrite !orb_true_r.
    + intros O. apply in_or_app. left. apply in_or_app. right. apply in_or_app. left.
      unfold image_shown. rewrite O. simpl. tauto.
Qed.

(** ** The device class of a session *)




(** ** An exchange that brings no credentials *)






Lemma turn_prefix payload mid resp tail :
  Sleep 2 :: Call (Call_get_qrcode_status payload) :: mid ++ Return (Json resp) :: tail
  = (Sleep 2 :: Call (Call_get_qrcode_status payload) :: mid ++ [Return (Json resp)])
    ++ tail.
Proof. simpl. now rewrite <- app_assoc. Qed.





(** ** The exchange in a session *)










Lemma filter_none {A} (p : A -> bool) (l : list A) :
  existsb p l = false -> filter p l = [].
Proof.
  induction l as [|x l IH]; simpl; [reflexivity|].
  intros H. apply orb_false_iff in H. destruct H as [H1 H2]. now rewrite H1, IH.
Qed.



(** ** The sessions, run *)

(** Scenario A: two polls find the code waiting, the third finds it
    confirmed, and the credentials are shown. *)
Example session_granted_run :
  let x := start_login_process session_granted (fresh "windows") in
  ending x = Ok tt
  /\ filter is_sleep (trace x) = [Sleep 2; Sleep 2; Sleep 2]
  /\ filter shows_cookies (trace x)
     = [Ui (CookieText [("UID", JStr "1_A1"); ("CID", JStr "c0")])]
  /\ existsb is_fatal_box (trace x) = false
  /\ polling_active (after x) = false.
Proof. vm_compute. repeat split. Qed.

(** C2, as stated: the token is issued, the image cannot be fetched, and
    the session is over -- the error box is shown, the polling phase is
    never entered and no status poll is made. *)
Lemma image_failure_ends_session :
  let x := _login_thread_func session_image_down (started "windows") in
  existsb is_image_call (trace x) = true
  /\ answer (image session_image_down) = Fails network_down
  /\ existsb is_fatal_box (trace x) = true
  /\ existsb enters_polling (trace x) = false
  /\ existsb is_poll (trace x) = false.
Proof. vm_compute. repeat split. Qed.

Lemma image_fetch_failure_aborts_witness :
  existsb is_fatal_box
    (trace (_login_thread_func session_image_down (started "windows"))) = true
  /\ existsb enters_polling
       (trace (_login_thread_func session_granted (started "windows"))) = true.
Proof.
  split.
  - pose proof (image_fetch_failure_aborts session_image_down (started "windows")) as H.
    cbv zeta in H.
    change (answer (image session_image_down)) with (@Fails bytes network_down) in H.
    cbv beta iota in H. destruct H as [_ [_ H]].
    assert (I : existsb is_image_call
                  (trace (_login_thread_func session_image_down (started "windows")))
                = true) by (vm_compute; reflexivity).
    exact (H I).
  - pose proof (image_fetch_failure_aborts session_granted (started "windows")) as H.
    cbv zeta in H.
    change (answer (image session_granted)) with (Responds some_image) in H.
    cbv beta iota in H.
    assert (I : existsb is_image_call
                  (trace (_login_thread_func session_granted (started "windows")))
                = true) by (vm_compute; reflexivity).
    exact (proj1 (H I)).
Defined.


(** C5, on a session whose first poll fails in transit: the poll returns the
    network-error response, the window gets the error line, and the next
    poll is entered after the two seconds of the next turn -- the worker
    sleeps twice two seconds and never three. *)
Lemma transient_error_gets_no_backoff :
  let x := _login_thread_func session_flaky (started "windows") in
  filter is_sleep (trace x) = [Sleep 2; Sleep 2]
  /\ filter (fun e => is_sleep e || is_poll e || is_status_update e) (trace x)
     = [Ui (UpdateStatus St_getting_token);
        Ui (UpdateStatus St_downloading_image);
        Ui (UpdateStatus St_waiting_for_scan);
        Sleep 2;
        Call (Call_get_qrcode_status
                (JDict [("uid", JStr "U1"); ("time", JInt 1700000000);
                        ("sign", JStr "f00d")]));
        UrlOpen (StatusApi [("uid", JStr "U1"); ("time", JInt 1700000000);
                            ("sign", JStr "f00d")]) 5;
        Ui (UpdateStatus (St_error (str network_down)));
        Sleep 2;
        Call (Call_get_qrcode_status
                (JDict [("uid", JStr "U1"); ("time", JInt 1700000000);
                        ("sign", JStr "f00d")]));
        UrlOpen (StatusApi [("uid", JStr "U1"); ("time", JInt 1700000000);
                            ("sign", JStr "f00d")]) 5;
        Ui (UpdateStatus
              (St_error_line
                 (inl (Exn RuntimeError
                         "the QR code has expired ({status_msg}), fetch a new one"
                         [JStr ""] None))))]
  /\ In (Return (Json (network_error_response network_down))) (trace x).
Proof.
  vm_compute. split; [reflexivity|]. split; [reflexivity|].
  repeat (first [left; reflexivity | right]).
Qed.

Lemma unknown_status_is_advisory_witness :
  ending (on_status (JDict [("state", JInt 1); ("data", JDict [("status", JInt 7)])])
            (JStr "U1") "windows" cookies_granted (started "windows"))
  = Ok Continue.
Proof.
  assert (A : status_of (JDict [("state", JInt 1); ("data", JDict [("status", JInt 7)])])
              = Some (JInt 7)) by reflexivity.
  assert (B : recognized (JInt 7) = false) by reflexivity.
  pose proof (unknown_status_is_advisory
                (JDict [("state", JInt 1); ("data", JDict [("status", JInt 7)])])
                (JInt 7) (JStr "U1") "windows" cookies_granted (started "windows")
                A B) as H.
  cbv zeta in H. exact (proj1 H).
Defined.





Lemma guard_reset_after_worker_witness :
  polling_active (after (_login_thread_func session_flaky (started "windows"))) = false
  /\ existsb is_token_call
       (trace (start_login_process session_granted
                 (after (_login_thread_func session_flaky (started "windows"))))) = true.
Proof.
  pose proof (guard_reset_after_worker session_flaky session_granted
                (started "windows")) as H.
  cbv zeta in H. destruct H as [_ [P T]].
  assert (N : String.eqb
                (selected_app_type_var
                   (after (_login_thread_func session_flaky (started "windows")))) ""
              = false) by (vm_compute; reflexivity).
  exact (conj P (T N)).
Defined.

(** * More of the client and the worker *)

(** ** The three operations that raise *)

(** X1.  [get_qrcode_token] makes exactly one request, with a timeout of ten
    seconds.  It returns the decoded document; a failure of the request is
    raised again as [ConnectionError] when it is a [URLError], [HTTPError]
    or [TimeoutError] and as [RuntimeError] otherwise, and a body that
    cannot be decoded is raised as [RuntimeError]: nothing else is ever
    raised. *)
Theorem token_request_outcomes (r : reply body) (s : app) :
  let x := get_qrcode_token r s in
  filter is_request (trace x) = [UrlOpen TokenApi 10]
  /\ match answer r with
     | Responds (Document j) =>
         x = Run (Ok j) (after (elapse (took r) s))
               [Call Call_get_qrcode_token; UrlOpen TokenApi 10; Return (Json j)]
     | Responds Malformed =>
         exists text cause,
           ending x = Raise (Exn RuntimeError text [] (Some cause))
           /\ class_of cause = JSONDecodeError
     | Fails e =>
         exists text, ending x = Raise (Exn (reraised_as e) text [] (Some e))
     end.
Proof.
  cbv zeta. unfold get_qrcode_token, reraised_as.
  destruct s as [n p st q c v th]. run_cbv.
  destruct (answer r) as [[j|]|e]; run_cbv; cbv [loads]; run_cbv.
  - split; reflexivity.
  - split; [reflexivity|]. cbv [is_a transport_errors existsb isinstance class_of
                                exn_class_eqb orb]. run_cbv. eauto.
  - destruct (is_a transport_errors e); run_cbv; split; eauto.
Qed.

(** X2.  [get_qrcode] makes exactly one request, for the image of [uid],
    with a timeout of ten seconds, and returns the bytes it read; a failure
    is raised again as [ConnectionError] when it is a [URLError],
    [HTTPError] or [TimeoutError] and as [RuntimeError] otherwise. *)
Theorem image_request_outcomes (uid : json) (r : reply bytes) (s : app) :
  let x := get_qrcode uid r s in
  filter is_request (trace x) = [UrlOpen (ImageApi uid) 10]
  /\ match answer r with
     | Responds b =>
         x = Run (Ok b) (after (elapse (took r) s))
               [Call (Call_get_qrcode uid); UrlOpen (ImageApi uid) 10; Return (Bytes b)]
     | Fails e =>
         exists text, ending x = Raise (Exn (reraised_as e) text [] (Some e))
     end.
Proof.
  cbv zeta. unfold get_qrcode, reraised_as.
  destruct s as [n p st q c v th]. run_cbv.
  destruct (answer r) as [b|e]; run_cbv.
  - split; reflexivity.
  - destruct (is_a transport_errors e); run_cbv; split; eauto.
Qed.



(** ** What [get_enum_name] returns *)

Lemma name_inj a b : name a = name b -> a = b.
Proof. destruct a, b; simpl; intros H; try reflexivity; discriminate. Qed.

(** X4.  Whatever [get_enum_name] returns is the name of a member, the
    only one that the argument names (as the member, by its name or by
    its value), and the returned name resolves to itself. *)
Theorem get_enum_name_sound (val : pyobj) (n : string) :
  get_enum_name val = inr n ->
  exists m,
    n = name m
    /\ is_form val m = true
    /\ (forall m', is_form val m' = true -> m' = m)
    /\ get_enum_name (Plain (JStr n)) = inr n.
Proof.
  intros H.
  assert (E : exists m, n = name m /\ is_form val m = true).
  { destruct val as [m|v]; simpl in H.
    - exists m. split; [congruence|]. simpl. apply Z.eqb_refl.
    - destruct (match v with JStr s => by_name s | _ => None end) as [m|] eqn:N.
      + exists m. split; [congruence|]. destruct v; try discriminate.
        apply by_name_sound in N. subst s. simpl. now rewrite String.eqb_refl.
      + destruct (by_value v) as [m|] eqn:B; [|discriminate].
        exists m. split; [congruence|]. apply by_value_sound in B. simpl.
        rewrite B. apply orb_true_r. }
  destruct E as [m [-> F]]. exists m. split; [reflexivity|]. split; [exact F|]. split.
  - intros m' F'. apply name_inj.
    pose proof (get_enum_name_form _ _ F') as G. congruence.
  - simpl. now rewrite by_name_name.
Qed.

Lemma get_enum_name_sound_witness :
  exists m, "tv" = name m /\ is_form (Plain (JFloat (7 # 1))) m = true.
Proof.
  assert (H : get_enum_name (Plain (JFloat (7 # 1))) = inr "tv") by reflexivity.
  destruct (get_enum_name_sound _ _ H) as [m [N [F _]]].
  exists m. exact (conj N F).
Defined.

(** ** The token step *)

Lemma get_qrcode_token_answered r j s :
  answer r = Responds (Document j) ->
  get_qrcode_token r s
  = Run (Ok j) (after (elapse (took r) s))
        [Call Call_get_qrcode_token; UrlOpen TokenApi 10; Return (Json j)].
Proof.
  intros A. unfold get_qrcode_token. destruct s as [n p st q c v th].
  run_cbv. rewrite A. run_cbv. reflexivity.
Qed.

(** The worker when its token step raises: the error box, and the end. *)
Lemma worker_token_failure env s e :
  let s0 := App (now s) true (stop_event s) (qrcode_token s) (current_app_type s)
                (selected_app_type_var s) (thread_alive s) in
  ending (acquire_token env s0) = Raise e ->
  trace (_login_thread_func env s)
  = trace (acquire_token env s0)
    ++ [Ui (ErrorBox (inl e)); Ui (UpdateStatus (St_error_line (inl e)));
        Ui (After_set_ui_state finished)].
Proof.
  cbv zeta. unfold _login_thread_func, login_steps. destruct s as [n p st q c v th].
  run_cbv.
  destruct (acquire_token env _) as [[uid|e'|] s1 t]; run_cbv; intros E;
    try discriminate.
  injection E as ->. now rewrite <- app_assoc.
Qed.

(** X5.  A token response whose [state] is missing or false ends the
    session at once: the worker shows the error box with the message of the
    response -- its [msg] if that is true, else its [error] if it has one,
    else "unknown error" -- and the token request is the only thing asked
    of the remote service. *)
Theorem refused_token_ends_session (env : environment) (s : app)
    (d : list (string * json)) :
  let field k default := match lookup k d with Some v => v | None => default end in
  let raised :=
    Exn RuntimeError "getting the token failed: {err_msg}"
        [or_else (field "msg" JNull) (field "error" (JStr "unknown error"))] None in
  answer (token env) = Responds (Document (JDict d)) ->
  truthy (field "state" JNull) = false ->
  trace (_login_thread_func env s)
  = [Ui (UpdateStatus St_getting_token); Call Call_get_qrcode_token;
     UrlOpen TokenApi 10; Return (Json (JDict d));
     Ui (ErrorBox (inl raised)); Ui (UpdateStatus (St_error_line (inl raised)));
     Ui (After_set_ui_state finished)].
Proof.
  cbv zeta. intros A F.
  set (s0 := App (now s) true (stop_event s) (qrcode_token s) (current_app_type s)
                 (selected_app_type_var s) (thread_alive s)).
  assert (R : exists s1,
             acquire_token env s0
             = Run (Raise (Exn RuntimeError "getting the token failed: {err_msg}"
                             [or_else
                                (match lookup "msg" d with Some v => v | None => JNull end)
                                (match lookup "error" d with
                                 | Some v => v
                                 | None => JStr "unknown error"
                                 end)] None))
                   s1
                   [Ui (UpdateStatus St_getting_token); Call Call_get_qrcode_token;
                    UrlOpen TokenApi 10; Return (Json (JDict d))]).
  { unfold acquire_token. unfold bind at 1. unfold update_status at 1, emit at 1.
    cbv beta iota. unfold bind at 1. rewrite (get_qrcode_token_answered _ _ _ A).
    cbv beta iota. eexists.
    destruct d as [|kv d'].
    - run_cbv. cbv [truthy get get_default lookup err_msg_of or_else]. run_cbv.
      reflexivity.
    - assert (T : truthy (JDict (kv :: d')) = true) by reflexivity.
      rewrite T. cbv [get get_default err_msg_of]. run_cbv. rewrite F. run_cbv.
      unfold or_else.
      destruct (truthy match lookup "msg" (kv :: d') with
                       | Some v => v
                       | None => JNull
                       end); run_cbv; reflexivity. }
  destruct R as [s1 R].
  rewrite (worker_token_failure env s _ (f_equal ending R)).
  fold s0. rewrite R. reflexivity.
Qed.
Lemma lookup_remove_other k k' d :
  String.eqb k k' = false -> lookup k' (remove k d) = lookup k' d.
Proof.
  intros N. induction d as [|[k0 v] d IH]; simpl; [reflexivity|].
  destruct (String.eqb k0 k) eqn:E.
  - apply String.eqb_eq in E. subst k0. now rewrite N.
  - simpl. now rewrite IH.
Qed.

Lemma lookup_remove_same k d : lookup k (remove k d) = None.
Proof.
  induction d as [|[k0 v] d IH]; simpl; [reflexivity|].
  destruct (String.eqb k0 k) eqn:E; [exact IH|]. simpl. now rewrite E.
Qed.

Lemma get_qrcode_token_raises r s :
  (forall j, answer r <> Responds (Document j)) ->
  exists e s' t, get_qrcode_token r s = Run (Raise e) s' t.
Proof.
  intros N. unfold get_qrcode_token. destruct s as [n p st q c v th]. run_cbv.
  destruct (answer r) as [[j|]|e]; run_cbv; cbv [loads]; run_cbv.
  - now destruct (N j).
  - cbv [is_a transport_errors existsb isinstance class_of exn_class_eqb orb].
    run_cbv. eauto.
  - destruct (is_a transport_errors e); run_cbv; eauto.
Qed.

Lemma acquire_token_run env s :
  match acquire_token env s with
  | Run (Ok uid) s' t =>
      exists j d code,
        answer (token env) = Responds (Document j)
        /\ subscript j "data" = inr (JDict d)
        /\ lookup "qrcode" d = Some code
        /\ lookup "uid" d = Some uid
        /\ qrcode_token s' = JDict (remove "qrcode" d)
  | _ => True
  end.
Proof.
  unfold acquire_token. unfold bind at 1, update_status at 1, emit at 1.
  cbv beta iota. unfold bind at 1.
  destruct (answer (token env)) as [[j|]|e] eqn:A.
  2, 3: destruct (get_qrcode_token_raises (token env) s) as [x [s' [t G]]];
    [intros j; rewrite A; discriminate|rewrite G; exact I].
  rewrite (get_qrcode_token_answered _ _ _ A). cbv beta iota.
  set (s1 := after (elapse (took (token env)) s)). clearbody s1.
  destruct s1 as [n p st q c v th].
  destruct j as [| | | | |l|dj].
  1-6: destruct (truthy _) eqn:T; run_cbv; cbv [get get_default err_msg_of]; run_cbv;
    rewrite ?T; run_cbv; exact I.
  assert (E : forall fallback, exists x, err_msg_of (JDict dj) fallback = inr x).
  { intros fallback. unfold err_msg_of, get, get_default.
    destruct (truthy _); eexists; reflexivity. }
  destruct (E "unknown error") as [x X].
  unfold get, get_default.
  destruct (truthy (JDict dj)) eqn:T; run_cbv; rewrite ?T; run_cbv.
  2: { rewrite X. exact I. }
  destruct (truthy match lookup "state" dj with Some x => x | None => JNull end).
  2: { run_cbv. rewrite X. exact I. }
  run_cbv. unfold subscript at 1.
  destruct (lookup "data" dj) as [data|] eqn:D; run_cbv; [|exact I].
  destruct data as [| | | |t|l|d]; cbv [contains pop subscript]; run_cbv; try exact I.
  - destruct (substring_of "qrcode" t); run_cbv; [|exact I].
    destruct (substring_of "uid" t); run_cbv; exact I.
  - destruct (existsb (fun x0 => eq_str x0 "qrcode") l); run_cbv; [|exact I].
    destruct (existsb (fun x0 => eq_str x0 "uid") l); run_cbv; exact I.
  - destruct (lookup "qrcode" d) as [code|] eqn:Q; run_cbv; [|exact I].
    destruct (lookup "uid" d) as [uid|] eqn:U; run_cbv; [|exact I].
    rewrite (lookup_remove_other "qrcode" "uid" d eq_refl), U. run_cbv.
    exists (JDict dj), d, code. unfold subscript. rewrite D. repeat split; trivial.
Qed.

(** ** Invariants of the application along a run *)

Section Respects.

Variable inv : app -> Prop.
Variable good : event -> Prop.

Lemma respects_ret {A} (a : A) : respects inv good (ret a).
Proof. intros s H. simpl. auto. Qed.

Lemma respects_raise {A} (e : exn) : respects inv good (@raise A e).
Proof. intros s H. simpl. auto. Qed.

Lemma respects_diverge {A} : respects inv good (@diverge A).
Proof. intros s H. simpl. auto. Qed.

Lemma respects_lift {A} (f : fallible A) : respects inv good (lift f).
Proof. destruct f; [apply respects_raise|apply respects_ret]. Qed.

Lemma respects_gets {A} (f : app -> A) : respects inv good (gets f).
Proof. intros s H. simpl. auto. Qed.

Lemma respects_emit (e : event) : good e -> respects inv good (emit e).
Proof. intros G s H. simpl. auto. Qed.

Lemma respects_modify (f : app -> app) :
  (forall s, inv s -> inv (f s)) -> respects inv good (modify f).
Proof. intros F s H. simpl. auto. Qed.

Lemma respects_bind {A B} (m : M A) (k : A -> M B) :
  respects inv good m -> (forall a, respects inv good (k a)) ->
  respects inv good (bind m k).
Proof.
  intros Hm Hk s H. unfold bind. destruct (Hm s H) as [H1 H2].
  destruct (m s) as [[a|e|] s' t]; simpl in *; auto.
  destruct (Hk a s' H1) as [H3 H4].
  rewrite after_extend, trace_extend. split; [exact H3|].
  apply Forall_app. auto.
Qed.


Lemma respects_dispatch {A} (e : exn) (clauses : list (clause A)) :
  Forall (fun c => forall x, respects inv good (snd c x)) clauses ->
  respects inv good (dispatch e clauses).
Proof.
  induction 1 as [|[takes handler] rest H _ IH]; simpl.
  - apply respects_raise.
  - destruct (takes e); [apply H|apply IH].
Qed.

Lemma respects_try_except {A} (body : M A) (clauses : list (clause A)) :
  respects inv good body ->
  Forall (fun c => forall x, respects inv good (snd c x)) clauses ->
  respects inv good (try_except body clauses).
Proof.
  intros Hb Hc s H. unfold try_except. destruct (Hb s H) as [H1 H2].
  destruct (body s) as [[a|e|] s' t]; simpl in *; auto.
  destruct (respects_dispatch e clauses Hc s' H1) as [H3 H4].
  rewrite after_extend, trace_extend. split; [exact H3|].
  apply Forall_app. auto.
Qed.

Lemma respects_try_finally {A} (body : M A) (cleanup : M unit) :
  respects inv good body -> respects inv good cleanup ->
  respects inv good (try_finally body cleanup).
Proof.
  intros Hb Hc s H. unfold try_finally. destruct (Hb s H) as [H1 H2].
  destruct (body s) as [[a|e|] s' t]; simpl in *; auto.
  all: destruct (Hc s' H1) as [H3 H4].
  all: destruct (cleanup s') as [[[]|x|] s'' t']; simpl in *.
  all: split; [exact H3|apply Forall_app; auto].
Qed.

Lemma respects_traced {A} (c : api_call) (wrap : A -> retval) (m : M A) :
  good (Call c) -> (forall a, good (Return (wrap a))) ->
  respects inv good m -> respects inv good (traced c wrap m).
Proof.
  intros Gc Gr Hm. unfold traced.
  apply respects_bind; [now apply respects_emit|intros _].
  apply respects_bind; [exact Hm|intros a].
  apply respects_bind; [now apply respects_emit|intros _].
  apply respects_ret.
Qed.

End Respects.

(** Takes a computation apart along its binds, branches, handlers and
    the definitions of the program; [known] is tried first at every step,
    [side] closes what is asked of an event or of a new state. *)
Ltac respects_step side :=
  lazymatch goal with
  | |- respects _ _ (bind _ _) => apply respects_bind; [|intros ?]
  | |- respects _ _ (try_except _ _) => apply respects_try_except
  | |- respects _ _ (try_finally _ _) => apply respects_try_finally
  | |- Forall _ (_ :: _) => apply Forall_cons; [simpl; intros ?|]
  | |- Forall _ [] => apply Forall_nil
  | |- respects _ _ (match ?x with _ => _ end) => destruct x
  | |- respects _ _ (ret _) => apply respects_ret
  | |- respects _ _ (raise _) => apply respects_raise
  | |- respects _ _ diverge => apply respects_diverge
  | |- respects _ _ (lift _) => apply respects_lift
  | |- respects _ _ (gets _) => apply respects_gets
  | |- respects _ _ monotonic => apply respects_gets
  | |- respects _ _ (emit _) => apply respects_emit; side
  | |- respects _ _ (modify _) => apply respects_modify; side
  | |- respects _ _ (traced _ _ _) =>
      apply respects_traced; [side|intros ?; side|]
  | |- respects _ _ (advance _) => unfold advance
  | |- respects _ _ (interfere _) => unfold interfere
  | |- respects _ _ (elapse _) => unfold elapse
  | |- respects _ _ (sleep _ _) => unfold sleep
  | |- respects _ _ is_set => unfold is_set
  | |- respects _ _ (urlopen _ _ _) => unfold urlopen
  | |- respects _ _ (set_polling_active _) => unfold set_polling_active
  | |- respects _ _ (set_stop_event _) => unfold set_stop_event
  | |- respects _ _ (set_thread_alive _) => unfold set_thread_alive
  | |- respects _ _ (set_qrcode_token _) => unfold set_qrcode_token
  | |- respects _ _ (acquire_token _) => unfold acquire_token
  | |- respects _ _ (poll_for_status _ _ _) => unfold poll_for_status
  | |- respects _ _ (login_steps _ _) => unfold login_steps
  | |- respects _ _ (loop_body _ _ _ _ _) => unfold loop_body
  | |- respects _ _ (_login_thread_func _) => unfold _login_thread_func
  | |- respects _ _ (set_current_app_type _) => unfold set_current_app_type
  | |- respects _ _ (update_status _) => unfold update_status
  | |- respects _ _ (show_error _) => unfold show_error
  | |- respects _ _ (show_info _ _) => unfold show_info
  | |- respects _ _ (display_qr_code _ _) => unfold display_qr_code
  | |- respects _ _ (display_cookies _) => unfold display_cookies
  | |- respects _ _ (set_ui_state _) => unfold set_ui_state
  | |- respects _ _ (get_qrcode_token _) => unfold get_qrcode_token
  | |- respects _ _ (get_qrcode_status _ _) => unfold get_qrcode_status
  | |- respects _ _ (post_qrcode_result _ _ _) => unfold post_qrcode_result
  | |- respects _ _ (get_qrcode _ _) => unfold get_qrcode
  | |- respects _ _ (fetch_cookies _ _ _) => unfold fetch_cookies
  | |- respects _ _ (on_status _ _ _ _) => unfold on_status
  | |- respects _ _ (show_qrcode _ _) => unfold show_qrcode
  end.

Ltac respects_with known side := repeat first [known | respects_step side].

(** ** The parameters of a session *)


Section SessionParameters.

Variables (d : list (string * json)) (uid : json) (a : string).









End SessionParameters.








(** X6.  A token response that is accepted but whose [data] lacks the
    [qrcode] or the [uid] ends the session at once: the worker shows the
    error box for the malformed response, and the token request is the
    only thing asked of the remote service. *)
Theorem malformed_token_ends_session (env : environment) (s : app)
    (dj d : list (string * json)) :
  let raised :=
    Exn RuntimeError "the token response is malformed: {self.qrcode_token}"
        [JDict d] None in
  answer (token env) = Responds (Document (JDict dj)) ->
  truthy (match lookup "state" dj with Some v => v | None => JNull end) = true ->
  lookup "data" dj = Some (JDict d) ->
  lookup "qrcode" d = None \/ lookup "uid" d = None ->
  trace (_login_thread_func env s)
  = [Ui (UpdateStatus St_getting_token); Call Call_get_qrcode_token;
     UrlOpen TokenApi 10; Return (Json (JDict dj));
     Ui (ErrorBox (inl raised)); Ui (UpdateStatus (St_error_line (inl raised)));
     Ui (After_set_ui_state finished)].
Proof.
  cbv zeta. intros A F D L.
  set (s0 := App (now s) true (stop_event s) (qrcode_token s) (current_app_type s)
                 (selected_app_type_var s) (thread_alive s)).
  assert (R : exists s1,
             acquire_token env s0
             = Run (Raise (Exn RuntimeError
                             "the token response is malformed: {self.qrcode_token}"
                             [JDict d] None))
                   s1
                   [Ui (UpdateStatus St_getting_token); Call Call_get_qrcode_token;
                    UrlOpen TokenApi 10; Return (Json (JDict dj))]).
  { unfold acquire_token. unfold bind at 1. unfold update_status at 1, emit at 1.
    cbv beta iota. unfold bind at 1. rewrite (get_qrcode_token_answered _ _ _ A).
    cbv beta iota. eexists.
    assert (T : truthy (JDict dj) = true) by (destruct dj; [discriminate|reflexivity]).
    rewrite T. cbv [get get_default subscript]. run_cbv. rewrite F, D. run_cbv.
    cbv [contains]. run_cbv.
    destruct (lookup "qrcode" d) as [code|]; run_cbv; [|reflexivity].
    destruct L as [L|L]; [discriminate|]. rewrite L. run_cbv. reflexivity. }
  destruct R as [s1 R].
  rewrite (worker_token_failure env s _ (f_equal ending R)).
  fold s0. rewrite R. reflexivity.
Qed.

(** ** How a session can end *)

Lemma fetch_cookies_outcome uid a r s :
  let x := fetch_cookies uid a r s in
  (filter celebrates (trace x) = [] /\ exists e, ending x = Raise e)
  \/ exists res cd,
       answer r = Responds (Document res)
       /\ accepted res = true
       /\ cookies_of res = Some (JDict cd)
       /\ cd <> []
       /\ ending x = Ok Break
       /\ filter celebrates (trace x) = celebration cd a.
Proof.
  cbv zeta. unfold fetch_cookies, post_qrcode_result, loads, urlencode. run_cbv.
  destruct (get_enum_name (Plain (JStr a))) as [e|n]; run_cbv.
  { left. destruct (is_a [ValueError] e); run_cbv; split; eauto. }
  destruct (answer r) as [[res|]|e]; run_cbv.
  2: { left. cbv [is_a transport_errors existsb isinstance class_of exn_class_eqb orb].
       run_cbv. split; eauto. }
  2: { left. destruct (is_a transport_errors e); run_cbv; split; eauto. }
  destruct (truthy res) eqn:T; run_cbv.
  - destruct (get res "state") as [e|state] eqn:G; run_cbv; [left; split; eauto|].
    destruct (truthy state) eqn:St; run_cbv.
    + destruct (get_default res "data" (JDict [])) as [e|data] eqn:D; run_cbv;
        [left; split; eauto|].
      destruct (get_default data "cookie" (JDict [])) as [e|cookies] eqn:K; run_cbv;
        [left; split; eauto|].
      destruct (truthy cookies) eqn:C; run_cbv; [|left; split; eauto].
      destruct cookies as [| | | | | |cd]; run_cbv; try (left; split; eauto; fail).
      right. exists res, cd. unfold accepted, cookies_of. rewrite T, G, St, D, K.
      repeat split; trivial. intros ->. discriminate.
    + destruct (err_msg_of res "unknown error"); run_cbv; left; split; eauto.
  - rewrite T. run_cbv.
    destruct (err_msg_of res "unknown error"); run_cbv; left; split; eauto.
Qed.

Lemma quiet_prefix d t : filter celebrates d = [] -> filter celebrates (d ++ t) = filter celebrates t.
Proof. intros H. now rewrite filter_app, H. Qed.

Lemma quiet_suffix d t : filter celebrates t = [] -> filter celebrates (d ++ t) = filter celebrates d.
Proof. intros H. now rewrite filter_app, H, app_nil_r. Qed.

Lemma genuine_after r a d e t :
  filter celebrates d = [] -> genuine r a e t -> genuine r a e (d ++ t).
Proof.
  intros Q [H|[E [res [cd H]]]]; [left|right].
  - now rewrite quiet_prefix.
  - split; [exact E|]. exists res, cd. now rewrite quiet_prefix.
Qed.

Lemma genuine_before r a d e t :
  filter celebrates d = [] -> genuine r a e t -> genuine r a e (t ++ d).
Proof.
  intros Q [H|[E [res [cd H]]]]; [left|right].
  - now rewrite quiet_suffix.
  - split; [exact E|]. exists res, cd. now rewrite quiet_suffix.
Qed.

Lemma poll_detail_quiet t : forallb poll_detail t = true -> filter celebrates t = [].
Proof. intros H. apply filter_none. revert H. apply forallb_existsb. by_event. Qed.

Lemma advisory_quiet t : forallb advisory t = true -> filter celebrates t = [].
Proof. intros H. apply filter_none. revert H. apply forallb_existsb. by_event. Qed.

Lemma prelude_quiet t : forallb prelude t = true -> filter celebrates t = [].
Proof. intros H. apply filter_none. revert H. apply forallb_existsb. by_event. Qed.

Lemma loop_body_genuine t uid a r start s :
  let x := loop_body t uid a r start s in
  match ending x with
  | Ok Continue => filter celebrates (trace x) = []
  | Ok Break => genuine r a (Ok tt) (trace x)
  | Raise e => genuine r a (Raise e) (trace x)
  | Diverge => genuine r a Diverge (trace x)
  end.
Proof.
  cbv zeta.
  destruct (loop_body_shape t uid a r start s)
    as [[T [e E]]|[[T E]|[[payload [e [T E]]]|[payload [mid [resp [F [[T E]|[s' [T E]]]]]]]]]].
  - rewrite E, T. now left.
  - rewrite E, T. now left.
  - rewrite E, T. reflexivity.
  - rewrite E, T. left. simpl. rewrite quiet_prefix by now apply poll_detail_quiet.
    reflexivity.
  - rewrite E, T, turn_prefix.
    assert (Q : filter celebrates
                  (Sleep 2 :: Call (Call_get_qrcode_status payload)
                   :: mid ++ [Return (Json resp)]) = []).
    { simpl. rewrite quiet_prefix by now apply poll_detail_quiet. reflexivity. }
    destruct (on_status_shape resp uid a r s') as [[A B]|[_ X]]; cbv zeta in *.
    + apply advisory_quiet in A.
      destruct (ending (on_status resp uid a r s')) as [[|]|x|]; try tauto.
      * now rewrite quiet_prefix.
      * left. now rewrite quiet_prefix.
    + rewrite X.
      destruct (fetch_cookies_outcome uid a r s') as [[N [x R]]|[res [cd H]]];
        cbv zeta in *.
      * rewrite R. left. now rewrite quiet_prefix.
      * destruct H as [H1 [H2 [H3 [H4 [H5 H6]]]]]. rewrite H5.
        apply genuine_after; [exact Q|]. right. split; [reflexivity|].
        exists res, cd. auto.
Qed.

Lemma poll_loop_genuine ticks uid a r start fuel i s :
  let l := poll_loop fuel ticks i uid a r start s in
  genuine r a (ending l) (trace l).
Proof.
  apply (poll_loop_rule ticks uid a r start
           (fun d => filter celebrates d = []) (genuine r a)).
  - intros d e t. apply genuine_after.
  - now left.
  - split; now left.
  - intros t s0. apply loop_body_genuine.
Qed.

Lemma login_steps_genuine env a s :
  let y := login_steps env a s in
  genuine (exchange env) a (ending y) (trace y).
Proof.
  cbv zeta.
  destruct (login_steps_anatomy env a s)
    as [[P _]|[[e [raised [pre [uid [_ [_ [P T1]]]]]]]|[b [pre [uid [s1 [_ [P [_ L]]]]]]]]].
  - left. now apply prelude_quiet, token_phase_prelude.
  - left. rewrite T1, quiet_prefix by now apply prelude_quiet, token_phase_prelude.
    reflexivity.
  - cbv zeta in L. destruct L as [tail [T1 [X Tl]]]. rewrite T1, X.
    apply genuine_after; [now apply prelude_quiet, token_phase_prelude|].
    apply genuine_after; [apply prelude_quiet, image_shown_prelude|].
    apply (genuine_after _ _ [Ui (UpdateStatus St_waiting_for_scan)]); [reflexivity|].
    apply genuine_before; [destruct Tl as [[-> _]|[-> _]]; reflexivity|].
    apply poll_loop_genuine.
Qed.

Section NoErrorBox.

Ltac plain_side := solve [ exact I | reflexivity | intros; exact I ].

Lemma plain_poll_loop ticks uid a r start fuel :
  forall i,
    respects (fun _ => True) (fun e => is_fatal_box e = false)
      (poll_loop fuel ticks i uid a r start).
Proof.
  induction fuel as [|fuel IH]; intros i; cbn [poll_loop]; cbv zeta.
  - apply respects_diverge.
  - unfold loop_body. respects_with ltac:(apply IH) plain_side.
Qed.

(** The steps of a login show no error box of the worker's handler. *)
Lemma login_steps_no_fatal env a s :
  existsb is_fatal_box (trace (login_steps env a s)) = false.
Proof.
  assert (R : respects (fun _ => True) (fun e => is_fatal_box e = false)
                (login_steps env a)).
  { respects_with ltac:(apply plain_poll_loop) plain_side. }
  destruct (R s I) as [_ F]. clear R.
  induction F as [|e t H _ IH]; simpl; [reflexivity|]. now rewrite H, IH.
Qed.

End NoErrorBox.

(** X9.  What a session celebrates is genuine.  Either it shows no
    credentials and never says that the login succeeded, or it ends
    without an error box and shows, once and in this order, the credentials
    of the exchange response -- a success response with a dict of
    credentials that is not empty --, the line for the success and the
    message box for the device class it was started with. *)
Theorem success_is_genuine (env : environment) (s : app) :
  let t := trace (_login_thread_func env s) in
  filter celebrates t = []
  \/ (existsb is_fatal_box t = false
      /\ exists res cd,
           answer (exchange env) = Responds (Document res)
           /\ accepted res = true
           /\ cookies_of res = Some (JDict cd)
           /\ cd <> []
           /\ filter celebrates t = celebration cd (current_app_type s)).
Proof.
  cbv zeta. destruct (worker_anatomy env s) as [s0 [_ [_ T]]]. cbv zeta in T.
  rewrite T. clear T.
  fold (epilogue (ending (login_steps env (current_app_type s) s0))).
  pose proof (login_steps_no_fatal env (current_app_type s) s0) as N.
  destruct (login_steps_genuine env (current_app_type s) s0) as [Q|[E [res [cd H]]]].
  - left. rewrite quiet_prefix by exact Q.
    now destruct (ending (login_steps env (current_app_type s) s0)).
  - right. rewrite E. split.
    + rewrite existsb_app, N. reflexivity.
    + exists res, cd. rewrite quiet_suffix by reflexivity. exact H.
Qed.

(** ** What held before, from what holds after *)

Section Retraces.

Variable inv : app -> Prop.
Variable good : event -> Prop.












End Retraces.



(** ** Once the stop event is seen, the session is stopped *)








(** ** A session in which stop is never pressed *)

Lemma calm_interfere i :
  stop_set i = false -> respects unstopped unhalted (interfere i).
Proof.
  intros C. apply respects_modify. intros [n p st q c v th].
  unfold unstopped, disturbed. simpl. intros ->. exact C.
Qed.

Lemma calm_elapse w :
  calm_wait w = true -> respects unstopped unhalted (elapse w).
Proof.
  intros C. unfold elapse. apply respects_bind.
  - apply respects_modify. intros [n p st q c v th]. unfold unstopped. simpl. tauto.
  - intros _. apply calm_interfere. unfold calm_wait in C. now destruct (stop_set _).
Qed.

(** With the stop event not set, a read of it finds it so and writes
    nothing. *)
Lemma unstopped_reads (m : M bool) {B} (k : bool -> M B) :
  (forall s, unstopped s -> m s = Run (Ok false) s []) ->
  respects unstopped unhalted (k false) ->
  respects unstopped unhalted (bind m k).
Proof.
  intros Hm Hk s H. unfold bind. rewrite (Hm s H).
  rewrite after_extend, trace_extend. apply (Hk s H).
Qed.

Lemma is_set_unstopped s : unstopped s -> is_set s = Run (Ok false) s [].
Proof. destruct s as [n p st q c v th]. unfold unstopped. simpl. now intros ->. Qed.

Lemma guarded_is_set_unstopped (active : bool) s :
  unstopped s -> (if active then is_set else ret false) s = Run (Ok false) s [].
Proof. destruct active; [apply is_set_unstopped|reflexivity]. Qed.

Ltac calm_known :=
  lazymatch goal with
  | |- respects _ _ (interfere _) => apply calm_interfere; assumption
  | |- respects _ _ (elapse _) => apply calm_elapse; assumption
  | |- respects _ _ (bind is_set _) =>
      apply unstopped_reads; [apply is_set_unstopped|]
  | |- respects _ _ (bind (if _ then is_set else ret false) _) =>
      apply unstopped_reads; [apply guarded_is_set_unstopped|]
  end.

Ltac calm_side :=
  solve [ split; reflexivity
        | intros [? ? ? ? ? ? ?]; unfold unstopped; simpl; tauto ].

Lemma calm_tick_parts t :
  calm_tick t = true ->
  stop_set (at_head t) = false /\ calm_wait (nap t) = true
  /\ calm_wait (took (poll t)) = true /\ calm_wait (backoff t) = true
  /\ stop_set (at_exit t) = false.
Proof.
  unfold calm_tick. intros H.
  repeat (apply andb_true_iff in H; destruct H as [H ?]).
  repeat split; trivial.
  - now destruct (stop_set (at_head t)).
  - now destruct (stop_set (at_exit t)).
Qed.

Lemma calm_poll_loop ticks uid a r start fuel :
  calm_wait (took r) = true ->
  (forall i, calm_tick (ticks i) = true) ->
  forall i, respects unstopped unhalted (poll_loop fuel ticks i uid a r start).
Proof.
  intros Cr Ct.
  induction fuel as [|fuel IH]; intros i; cbn [poll_loop]; cbv zeta.
  - apply respects_diverge.
  - destruct (calm_tick_parts _ (Ct i)) as [C1 [C2 [C3 [C4 C5]]]].
    respects_with ltac:(first [apply IH | calm_known]) calm_side.
Qed.

Lemma calm_worker env :
  never_stopped env -> respects unstopped unhalted (_login_thread_func env).
Proof.
  intros [C1 [C2 [C3 Ct]]].
  respects_with ltac:(first [apply calm_poll_loop; assumption | calm_known]) calm_side.
Qed.

Lemma unhalted_none t :
  Forall unhalted t ->
  existsb is_stop_seen t = false /\ existsb says_stopped t = false.
Proof.
  induction 1 as [|e t [H1 H2] _ [IH1 IH2]]; simpl; [now split|].
  now rewrite H1, H2, IH1, IH2.
Qed.

(** X11.  A stop event left set by an earlier session does not reach the
    next one: [start_login_process] clears it before the worker starts, so
    a session in which stop is never pressed never finds the stop event
    set and never says "stopped", and the event is still clear when the
    session is over. *)
Theorem stale_stop_is_cleared (env : environment) (s : app) :
  never_stopped env ->
  polling_active s = false ->
  String.eqb (selected_app_type_var s) "" = false ->
  let x := start_login_process env s in
  existsb is_stop_seen (trace x) = false
  /\ existsb says_stopped (trace x) = false
  /\ stop_event (after x) = false.
Proof.
  intros C P V. cbv zeta. unfold start_login_process.
  destruct s as [n p st q c v th]. simpl in P, V. subst p. run_cbv. rewrite V.
  run_cbv.
  match goal with
  | |- context [_login_thread_func env ?s0] =>
      destruct (calm_worker env C s0 eq_refl) as [U F];
      destruct (_login_thread_func env s0) as [[[]|e|] [n1 p1 st1 q1 c1 v1 th1] t1]
  end; unfold unstopped in U; cbn [after trace stop_event] in U, F; subst st1; run_cbv.
  all: destruct (unhalted_none _ F) as [F1 F2].
  all: cbn [existsb is_stop_seen says_stopped orb].
  all: rewrite ?existsb_app, F1, F2; repeat split; reflexivity.
Qed.

Lemma stale_stop_is_cleared_witness :
  existsb says_stopped (trace (start_login_process session_granted (stale "windows")))
  = false.
Proof.
  assert (C : never_stopped session_granted).
  { repeat split. intros [|[|i]]; reflexivity. }
  assert (P : polling_active (stale "windows") = false) by reflexivity.
  assert (V : String.eqb (selected_app_type_var (stale "windows")) "" = false)
    by reflexivity.
  exact (proj1 (proj2 (stale_stop_is_cleared session_granted (stale "windows") C P V))).
Defined.

(** ** How often a session polls *)

Lemma advisory_no_status_call t :
  forallb advisory t = true -> filter is_status_call t = [].
Proof. intros H. apply filter_none. revert H. apply forallb_existsb. by_event. Qed.

Lemma poll_detail_no_status_call t :
  forallb poll_detail t = true -> filter is_status_call t = [].
Proof. intros H. apply filter_none. revert H. apply forallb_existsb. by_event. Qed.

Lemma exchange_tail_no_status_call t :
  forallb exchange_tail t = true -> filter is_status_call t = [].
Proof. intros H. apply filter_none. revert H. apply forallb_existsb. by_event. Qed.

Lemma prelude_no_status_call t :
  forallb prelude t = true -> filter is_status_call t = [].
Proof. intros H. apply filter_none. revert H. apply forallb_existsb. by_event. Qed.

Lemma on_status_no_status_call resp uid a r s :
  filter is_status_call (trace (on_status resp uid a r s)) = [].
Proof.
  destruct (on_status_shape resp uid a r s) as [[A _]|[_ X]]; cbv zeta in *.
  - now apply advisory_no_status_call.
  - rewrite X. destruct (fetch_cookies_shape uid a r s) as [post [T [F _]]].
    cbv zeta in T. rewrite T. simpl. now apply exchange_tail_no_status_call.
Qed.

(** A turn polls at most once. *)
Lemma loop_body_polls_once t uid a r start s :
  (List.length (filter is_status_call (trace (loop_body t uid a r start s))) <= 1)%nat.
Proof.
  destruct (loop_body_shape t uid a r start s)
    as [[T _]|[[T _]|[[payload [x [T _]]]|[payload [mid [resp [F [[T _]|[s' [T _]]]]]]]]]];
    rewrite T; simpl; try lia.
  - rewrite filter_app, (poll_detail_no_status_call _ F). simpl. lia.
  - rewrite filter_app, (poll_detail_no_status_call _ F). simpl.
    rewrite on_status_no_status_call. simpl. lia.
Qed.

(** A turn that begins after the timeout writes nothing. *)
Lemma loop_body_timed_out t uid a r start s :
  1000 * timeout_seconds < now s - start ->
  trace (loop_body t uid a r start s) = [].
Proof.
  intros G. unfold loop_body. unfold bind at 1, monotonic at 1, gets at 1.
  cbv beta iota.
  destruct (Z.gtb_spec (now s - start) (1000 * timeout_seconds)) as [_|N]; [|lia].
  reflexivity.
Qed.

(** With the clock at [now s], the loop polls no more often than two
    seconds fit into what is left of the timeout, and once more. *)
Lemma poll_loop_polls ticks uid a r start :
  forall fuel i s k,
    0 <= k ->
    1000 * timeout_seconds - (now s - start) < 2000 * k ->
    Z.of_nat (List.length
                (filter is_status_call (trace (poll_loop fuel ticks i uid a r start s))))
    <= k.
Proof.
  induction fuel as [|fuel IH]; intros i s k K H; [simpl; lia|].
  cbn [poll_loop]. run_cbv. destruct s as [n p st q c v th]. run_cbv.
  cbn [now] in H.
  destruct (ui_finished (at_head (ticks i))); destruct p; run_cbv; try (simpl; lia).
  all: destruct st; run_cbv; try (simpl; lia).
  all: destruct (stop_set (at_head (ticks i))); run_cbv; try (simpl; lia).
  all: match goal with
       | |- context [loop_body ?t ?u ?a0 ?r0 ?b ?s0] =>
           pose proof (loop_body_polls_once t u a0 r0 b s0) as B;
           pose proof (loop_body_timed_out t u a0 r0 b s0) as O;
           pose proof (loop_body_clock t u a0 r0 b s0) as C;
           cbv zeta in C; destruct C as [_ C];
           destruct (loop_body t u a0 r0 b s0) as [[[|]|e|] s1 t1]
       end; cbn [ending trace after now] in B, O, C; run_cbv; rewrite ?app_nil_r.
  all: try (destruct (Z.ltb_spec (1000 * timeout_seconds) (n - start)) as [G|G];
            [rewrite (O G); simpl; lia|lia]).
  all: destruct (C _ eq_refl) as [C1 C2].
  all: match goal with
       | |- context [poll_loop ?f ?tk ?j ?u ?a0 ?r0 ?b ?s2] =>
           pose proof (IH j s2 (k - 1)) as L;
           destruct (poll_loop f tk j u a0 r0 b s2) as [e2 s3 t2]
       end; cbn [trace] in L; run_cbv.
  all: rewrite filter_app, length_app; lia.
Qed.

(** X12.  No session polls the status more than 91 times: every turn of
    the loop sleeps two seconds before it polls, and a turn that begins
    more than 180 seconds after the loop was entered does not poll. *)
Theorem polls_are_bounded (env : environment) (s : app) :
  (List.length (filter is_status_call (trace (_login_thread_func env s))) <= 91)%nat.
Proof.
  destruct (worker_anatomy env s) as [s0 [_ [_ T]]]. cbv zeta in T. rewrite T. clear T.
  fold (epilogue (ending (login_steps env (current_app_type s) s0))).
  rewrite filter_app, length_app.
  replace (filter is_status_call (epilogue _)) with (@nil event)
    by now destruct (ending (login_steps env (current_app_type s) s0)).
  destruct (login_steps_anatomy env (current_app_type s) s0)
    as [[P _]|[[e [raised [pre [uid [_ [_ [P T1]]]]]]]|[b [pre [uid [s1 [_ [P [_ L]]]]]]]]].
  - rewrite (prelude_no_status_call _ (token_phase_prelude _ P)). simpl. lia.
  - rewrite T1, filter_app, (prelude_no_status_call _ (token_phase_prelude _ P)).
    simpl. lia.
  - cbv zeta in L. destruct L as [tail [T1 [_ Tl]]]. rewrite T1.
    rewrite !filter_app, (prelude_no_status_call _ (token_phase_prelude _ P)),
      (prelude_no_status_call _ (image_shown_prelude env uid b)).
    cbn [filter is_status_call List.app]. rewrite filter_app, length_app.
    pose proof (poll_loop_polls (ticks env) uid (current_app_type s) (exchange env)
                  (now s1) max_turns 0 s1 91) as B.
    assert (X : filter is_status_call tail = [])
      by (destruct Tl as [[-> _]|[-> _]]; reflexivity).
    rewrite X. cbn [List.length]. unfold timeout_seconds in B. lia.
Qed.

(** ** The branches of a poll outcome *)

(** On a success response, the loop reads the status and branches on it. *)
Lemma on_status_accepted resp status uid a r s :
  accepted resp = true ->
  status_of resp = Some status ->
  exists status_data status_msg,
    get_default resp "data" (JDict []) = inr status_data
    /\ get_default status_data "msg" (JStr "") = inr status_msg
    /\ on_status resp uid a r s
       = (if eq_int status 0 then
            update_status St_waiting_for_scan ;; ret Continue
          else if eq_int status 1 then
            update_status St_scanned ;; ret Continue
          else if eq_int status 2 then
            fetch_cookies uid a r
          else if eq_int status (-1) then
            raise (Exn RuntimeError "the QR code has expired ({status_msg}), fetch a new one"
                     [status_msg] None)
          else if eq_int status (-2) then
            raise (Exn RuntimeError "login was cancelled ({status_msg})" [status_msg] None)
          else if eq_int status (-99) then
            error <- lift (get resp "error") ;;
            update_status (St_network_retry error) ;; ret Continue
          else
            update_status (St_unknown_status status status_data) ;;
            emit (Printed (Warn_unknown_status resp)) ;;
            ret Continue) s.
Proof.
  intros A H. unfold accepted in A. apply andb_true_iff in A. destruct A as [T A].
  destruct (get resp "state") as [|state] eqn:G; try discriminate.
  unfold status_of in H.
  destruct (get_default resp "data" (JDict [])) as [|sd] eqn:D; try discriminate.
  destruct (get sd "status") as [|st] eqn:S; try discriminate.
  injection H as ->.
  assert (M : exists m, get_default sd "msg" (JStr "") = inr m).
  { destruct sd; try discriminate. eexists. reflexivity. }
  destruct M as [m M]. exists sd, m. split; [reflexivity|]. split; [exact M|].
  unfold on_status. rewrite T. run_cbv. rewrite G. run_cbv. rewrite A. run_cbv.
  rewrite D. run_cbv. rewrite S. run_cbv. rewrite M. run_cbv.
  destruct (eq_int status 0); [reflexivity|].
  destruct (eq_int status 1); [reflexivity|].
  destruct (eq_int status 2).
  { destruct (fetch_cookies uid a r s). reflexivity. }
  destruct (eq_int status (-1)); [reflexivity|].
  destruct (eq_int status (-2)); [reflexivity|].
  destruct (eq_int status (-99)); [|reflexivity].
  destruct (get resp "error"); reflexivity.
Qed.

Lemma reports_parts n resp :
  reports n resp = true ->
  accepted resp = true /\ exists status, status_of resp = Some status /\ eq_int status n = true.
Proof.
  unfold reports, accepted. intros H.
  apply andb_true_iff in H. destruct H as [H S]. split; [exact H|].
  destruct (status_of resp) as [status|]; [|discriminate]. now exists status.
Qed.

Lemma eq_int_other status n m : eq_int status n = true -> n <> m -> eq_int status m = false.
Proof.
  intros H N. destruct (eq_int status m) eqn:E; [|reflexivity].
  now destruct (N (eq_int_unique _ _ _ H E)).
Qed.

Lemma on_status_waiting resp uid a r s :
  reports 0 resp = true ->
  on_status resp uid a r s = Run (Ok Continue) s [Ui (UpdateStatus St_waiting_for_scan)].
Proof.
  intros H. destruct (reports_parts _ _ H) as [A [status [S E]]].
  destruct (on_status_accepted resp status uid a r s A S) as [sd [m [_ [_ X]]]].
  rewrite X, E. reflexivity.
Qed.

Lemma on_status_scanned resp uid a r s :
  reports 1 resp = true ->
  on_status resp uid a r s = Run (Ok Continue) s [Ui (UpdateStatus St_scanned)].
Proof.
  intros H. destruct (reports_parts _ _ H) as [A [status [S E]]].
  destruct (on_status_accepted resp status uid a r s A S) as [sd [m [_ [_ X]]]].
  rewrite X, E, (eq_int_other status 1 0 E) by lia. reflexivity.
Qed.

(** X13.  A poll that reports the code expired (-1) or the login
    cancelled (-2) ends the loop with a [RuntimeError] that carries the
    [msg] of the response's data (the empty string if it has none); the
    branch writes nothing, changes nothing and asks nothing of the remote
    service. *)
Theorem expired_or_cancelled_is_fatal (resp uid : json) (a : string) (r : reply body)
    (s : app) (n : Z) :
  n = -1 \/ n = -2 ->
  reports n resp = true ->
  exists status_data status_msg,
    get_default resp "data" (JDict []) = inr status_data
    /\ get_default status_data "msg" (JStr "") = inr status_msg
    /\ on_status resp uid a r s
       = Run (Raise (Exn RuntimeError
                       (if n =? -1
                        then "the QR code has expired ({status_msg}), fetch a new one"
                        else "login was cancelled ({status_msg})")
                       [status_msg] None))
             s [].
Proof.
  intros N H. destruct (reports_parts _ _ H) as [A [status [S E]]].
  destruct (on_status_accepted resp status uid a r s A S) as [sd [m [D [M X]]]].
  exists sd, m. split; [exact D|]. split; [exact M|]. rewrite X.
  destruct N as [-> | ->].
  - rewrite (eq_int_other status (-1) 0 E), (eq_int_other status (-1) 1 E),
      (eq_int_other status (-1) 2 E), E by lia. reflexivity.
  - rewrite (eq_int_other status (-2) 0 E), (eq_int_other status (-2) 1 E),
      (eq_int_other status (-2) 2 E), (eq_int_other status (-2) (-1) E), E by lia.
    reflexivity.
Qed.

Lemma expired_or_cancelled_is_fatal_witness :
  exists status_msg,
    on_status (JDict [("state", JInt 1);
                      ("data", JDict [("status", JInt (-2)); ("msg", JStr "by user")])])
      (JStr "U1") "windows" cookies_granted (started "windows")
    = Run (Raise (Exn RuntimeError "login was cancelled ({status_msg})" [status_msg] None))
          (started "windows") [].
Proof.
  assert (N : -2 = -1 \/ -2 = -2) by (right; reflexivity).
  assert (H : reports (-2)
                (JDict [("state", JInt 1);
                        ("data", JDict [("status", JInt (-2)); ("msg", JStr "by user")])])
              = true) by reflexivity.
  destruct (expired_or_cancelled_is_fatal _ (JStr "U1") "windows" cookies_granted
              (started "windows") (-2) N H) as [sd [m [_ [_ X]]]].
  exists m. exact X.
Defined.

(** ** A code that is never confirmed *)

Lemma unanswered_parts t :
  unanswered t = true ->
  stop_set (at_head t) = false /\ ui_finished (at_head t) = false
  /\ stop_set (meanwhile (nap t)) = false /\ ui_finished (meanwhile (nap t)) = false
  /\ stop_set (meanwhile (took (poll t))) = false
  /\ ui_finished (meanwhile (took (poll t))) = false
  /\ (reports 0 (poll_outcome (poll t)) = true \/ reports 1 (poll_outcome (poll t)) = true).
Proof.
  unfold unanswered. rewrite !andb_true_iff, !negb_true_iff, orb_true_iff. tauto.
Qed.

Lemma loop_body_late t uid a r start s :
  1000 * timeout_seconds < now s - start ->
  loop_body t uid a r start s = Run (Raise timed_out) s [].
Proof.
  intros G. unfold loop_body. unfold bind at 1, monotonic at 1, gets at 1.
  cbv beta iota.
  destruct (Z.gtb_spec (now s - start) (1000 * timeout_seconds)) as [_|N]; [|lia].
  reflexivity.
Qed.

(** A turn in which the code is found waiting or scanned goes on, two
    seconds later at the least, with the application as it was. *)
Lemma unanswered_turn t uid a r start s d :
  unanswered t = true ->
  polling_active s = true -> stop_event s = false -> qrcode_token s = JDict d ->
  now s - start <= 1000 * timeout_seconds ->
  let x := loop_body t uid a r start s in
  ending x = Ok Continue
  /\ polling_active (after x) = true /\ stop_event (after x) = false
  /\ qrcode_token (after x) = JDict d
  /\ now s + 2000 <= now (after x).
Proof.
  intros U P St Q N. destruct (unanswered_parts t U) as [_ [_ [U1 [U2 [U3 [U4 U5]]]]]].
  destruct s as [n p st q c v th]. cbn [now polling_active stop_event qrcode_token] in *.
  subst p st q. cbv zeta. unfold loop_body. run_cbv.
  destruct (Z.gtb_spec (n - start) (1000 * timeout_seconds)) as [G|_]; [lia|].
  run_cbv. rewrite U1, U2. run_cbv.
  match goal with
  | |- context [get_qrcode_status (JDict d) ?rp ?s0] =>
      destruct (get_qrcode_status_run (JDict d) rp s0) as [mid [G _]]; rewrite G
  end.
  run_cbv. rewrite U3, U4. run_cbv.
  destruct U5 as [W|W];
    [rewrite (on_status_waiting _ _ _ _ _ W)|rewrite (on_status_scanned _ _ _ _ _ W)].
  all: run_cbv; repeat split; lia.
Qed.

Lemma poll_loop_turn fuel ticks i uid a r start :
  poll_loop (S fuel) ticks i uid a r start
  = (interfere (at_head (ticks i)) ;;
     active <- gets polling_active ;;
     stopped <- (if active then is_set else ret false) ;;
     if active && negb stopped then
       c <- loop_body (ticks i) uid a r start ;;
       match c with
       | Continue => poll_loop fuel ticks (S i) uid a r start
       | Break => interfere (at_exit (ticks i))
       end
     else interfere (at_exit (ticks i))).
Proof. reflexivity. Qed.

Lemma poll_loop_unanswered ticks uid a r start d :
  (forall i, unanswered (ticks i) = true) ->
  forall fuel i s,
    polling_active s = true -> stop_event s = false -> qrcode_token s = JDict d ->
    1000 * timeout_seconds < now s - start + 2000 * Z.of_nat fuel ->
    ending (poll_loop (S fuel) ticks i uid a r start s) = Raise timed_out.
Proof.
  intros U. induction fuel as [|fuel IH]; intros i s P St Q H.
  all: destruct (unanswered_parts _ (U i)) as [U1 [U2 _]].
  all: destruct s as [n p st q c v th];
    cbn [now polling_active stop_event qrcode_token] in *; subst p st q.
  all: rewrite poll_loop_turn; run_cbv; rewrite U1, U2; run_cbv.
  all: match goal with
       | |- context [loop_body ?t ?u ?a0 ?r0 ?b ?s0] =>
           pose proof (loop_body_late t u a0 r0 b s0) as L;
           pose proof (unanswered_turn t u a0 r0 b s0 d (U i) eq_refl eq_refl eq_refl) as T;
           cbv zeta in T; cbn [now] in L, T
       end.
  all: destruct (Z.ltb_spec (1000 * timeout_seconds) (n - start)) as [G|G];
    [rewrite (L G); reflexivity|].
  - exfalso. lia.
  - destruct (T G) as [T1 [T2 [T3 [T4 T5]]]]. clear T L.
    match goal with
    | |- context [loop_body ?t ?u ?a0 ?r0 ?b ?s0] =>
        destruct (loop_body t u a0 r0 b s0) as [e1 s1 t1]
    end.
    cbn [ending after] in T1, T2, T3, T4, T5. subst e1. run_cbv.
    pose proof (IH (S i) s1 T2 T3 T4) as X.
    match goal with
    | |- context [poll_loop ?f ?tk ?j ?u ?a0 ?r0 ?b ?s2] =>
        destruct (poll_loop f tk j u a0 r0 b s2) as [e2 s2' t2]
    end.
    cbn [ending] in X |- *. apply X. lia.
Qed.

Lemma acquire_token_guard env s :
  polling_active (after (acquire_token env s))
  = polling_active s && negb (ui_finished (meanwhile (took (token env)))).
Proof.
  unfold acquire_token, get_qrcode_token. destruct s as [n p st q c v th].
  run_all; reflexivity.
Qed.

Lemma extend_extend {A} (t t' : list event) (r : run A) :
  extend t (extend t' r) = extend (t ++ t') r.
Proof. destruct r. simpl. now rewrite app_assoc. Qed.

(** A login that enters the polling phase: the state in which it does, and
    what came before. *)
Lemma login_steps_at_loop env a s :
  existsb enters_polling (trace (login_steps env a s)) = true ->
  exists b pre uid s1 d,
    answer (image env) = Responds b
    /\ forallb prelude pre = true
    /\ polling_active s1
       = polling_active s && negb (ui_finished (meanwhile (took (token env))))
         && negb (ui_finished (meanwhile (took (image env))))
    /\ stop_event s1
       = stop_event s || stop_set (meanwhile (took (token env)))
         || stop_set (meanwhile (took (image env)))
    /\ qrcode_token s1 = JDict d
    /\ login_steps env a s = extend pre (poll_for_status env uid a s1).
Proof.
  remember (login_steps env a s) as x eqn:X.
  unfold login_steps in X. unfold bind at 1 in X.
  pose proof (acquire_token_run env s) as R.
  pose proof (acquire_token_guard env s) as G.
  destruct (acquire_token_shape env s) as [T [D S]].
  destruct (acquire_token env s) as [[uid|e|] s0 t0]; cbn [ending after trace] in *.
  - unfold bind at 1 in X. pose proof (show_qrcode_run env uid s0) as Q.
    destruct R as [j [d [code [_ [_ [_ [_ K]]]]]]].
    destruct (answer (image env)) as [b|e] eqn:A.
    + intros _. rewrite Q in X. cbn [extend] in X. rewrite extend_extend in X.
      exists b, (t0 ++ image_shown env uid b), uid,
        (after (elapse (took (image env)) s0)), (remove "qrcode" d).
      split; [reflexivity|]. split.
      { rewrite forallb_app, (token_phase_prelude _ T), image_shown_prelude.
        reflexivity. }
      destruct s0 as [n p st q c v th].
      cbn [polling_active stop_event qrcode_token] in G, S, K. subst p st q.
      repeat split; try reflexivity. exact X.
    + destruct Q as [raised Q]. rewrite Q in X. cbn [extend] in X. subst x.
      cbn [trace]. rewrite existsb_app.
      rewrite (prelude_no_polling_phase _ (token_phase_prelude _ T)). discriminate.
  - subst x. cbn [trace].
    rewrite (prelude_no_polling_phase _ (token_phase_prelude _ T)). discriminate.
  - now destruct D.
Qed.

Lemma worker_trace env s :
  let s0 := App (now s) true (stop_event s) (qrcode_token s) (current_app_type s)
                (selected_app_type_var s) (thread_alive s) in
  let y := login_steps env (current_app_type s) s0 in
  trace (_login_thread_func env s) = trace y ++ epilogue (ending y).
Proof.
  cbv zeta. unfold _login_thread_func. destruct s as [n p st q c v th]. run_cbv.
  match goal with
  | |- context [login_steps env c ?s1] =>
      pose proof (halting_login_steps env c s1) as H;
      destruct (login_steps env c s1) as [[[]|e|] [] t]
  end; run_cbv; unfold epilogue; rewrite <- ?app_assoc; try reflexivity.
  exfalso. now apply H.
Qed.

Lemma quiet_wait_parts w :
  quiet_wait w = true ->
  stop_set (meanwhile w) = false /\ ui_finished (meanwhile w) = false.
Proof. unfold quiet_wait. rewrite andb_true_iff, !negb_true_iff. tauto. Qed.

(** X14.  A code that nobody confirms times out.  When nobody presses
    stop or resets the window, and every poll finds the code waiting or
    scanned (or times out itself), a session that entered the polling phase
    ends with the error box for the timeout, having shown no credentials
    and said no success. *)
Theorem unconfirmed_code_times_out (env : environment) (s : app) :
  stop_event s = false ->
  quiet_wait (took (token env)) = true ->
  quiet_wait (took (image env)) = true ->
  (forall i, unanswered (ticks env i) = true) ->
  let x := _login_thread_func env s in
  existsb enters_polling (trace x) = true ->
  In (Ui (ErrorBox (inl timed_out))) (trace x)
  /\ filter celebrates (trace x) = [].
Proof.
  intros St Qt Qi U. cbv zeta. rewrite worker_trace. cbv zeta.
  set (s0 := App (now s) true (stop_event s) (qrcode_token s) (current_app_type s)
                 (selected_app_type_var s) (thread_alive s)).
  intros E.
  assert (E' : existsb enters_polling (trace (login_steps env (current_app_type s) s0))
               = true).
  { rewrite existsb_app in E. apply orb_true_iff in E. destruct E as [E|E]; [exact E|].
    destruct (epilogue_no_polling (ending (login_steps env (current_app_type s) s0)))
      as [N _]. congruence. }
  clear E.
  pose proof (login_steps_genuine env (current_app_type s) s0) as Gn. cbv zeta in Gn.
  destruct (login_steps_at_loop env (current_app_type s) s0 E')
    as [b [pre [uid [s1 [d [_ [_ [P [S [K X]]]]]]]]]].
  destruct (quiet_wait_parts _ Qt) as [Q1 Q2]. destruct (quiet_wait_parts _ Qi) as [Q3 Q4].
  unfold s0 in P, S. cbn [polling_active stop_event] in P, S.
  rewrite St, Q1, Q3 in S. rewrite Q2, Q4 in P. cbn [orb andb negb] in P, S.
  assert (R : ending (login_steps env (current_app_type s) s0) = Raise timed_out).
  { rewrite X, ending_extend. unfold poll_for_status.
    unfold bind at 1, update_status at 1, emit at 1. cbv beta iota. rewrite ending_extend.
    unfold bind at 1, monotonic at 1, gets at 1. cbv beta iota. rewrite ending_extend.
    unfold bind at 1.
    pose proof (poll_loop_unanswered (ticks env) uid (current_app_type s) (exchange env)
                  (now s1) d U 91%nat 0%nat s1 P S K) as L.
    change (Datatypes.S 91) with max_turns in L.
    destruct (poll_loop max_turns (ticks env) 0 uid (current_app_type s) (exchange env)
                (now s1) s1) as [e2 s2 t2].
    cbn [ending] in L. rewrite L; [reflexivity|]. unfold timeout_seconds. lia. }
  rewrite R in Gn |- *. split.
  - apply in_or_app. right. simpl. tauto.
  - destruct Gn as [Gn|[Gn _]]; [|discriminate].
    now rewrite quiet_suffix.
Qed.

Lemma unconfirmed_code_times_out_witness :
  In (Ui (ErrorBox (inl timed_out)))
     (trace (_login_thread_func session_unanswered (started "windows"))).
Proof.
  assert (St : stop_event (started "windows") = false) by reflexivity.
  assert (Qt : quiet_wait (took (token session_unanswered)) = true) by reflexivity.
  assert (Qi : quiet_wait (took (image session_unanswered)) = true) by reflexivity.
  assert (U : forall i, unanswered (ticks session_unanswered i) = true)
    by (intros i; reflexivity).
  assert (E : existsb enters_polling
                (trace (_login_thread_func session_unanswered (started "windows")))
              = true) by (vm_compute; reflexivity).
  exact (proj1 (unconfirmed_code_times_out session_unanswered (started "windows")
                  St Qt Qi U E)).
Defined.

(** ** The stop button *)

(** With the stop event set when the loop looks, at any turn, the loop
    ends at once. *)
Lemma poll_loop_stopped ticks uid a r start fuel i s :
  stop_event s = true ->
  let l := poll_loop (S fuel) ticks i uid a r start s in
  ending l = Ok tt /\ stop_event (after l) = true
  /\ (trace l = [] \/ trace l = [Stop_seen]).
Proof.
  intros H. cbv zeta. rewrite poll_loop_turn. destruct s as [n p st q c v th].
  cbn [stop_event] in H. subst st. run_cbv.
  destruct p; run_cbv; [destruct (ui_finished (at_head (ticks i))); run_cbv|].
  all: repeat split; auto.
Qed.

(** X15.  [stop_polling] with a worker alive sets the stop event and says
    "stopping"; the loop that next looks at the application ends at once --
    it does not sleep, poll or ask anything of the remote service.  With no
    worker alive it says that there is nothing to stop and leaves the
    application as it was.  Either way it schedules the reset of the
    window. *)
Theorem stop_request_is_honoured (s : app) :
  let x := stop_polling s in
  if thread_alive s then
    trace x = [Ui (UpdateStatus St_stopping); Ui (After_set_ui_state finished)]
    /\ stop_event (after x) = true
    /\ forall ticks uid a r start fuel i,
         let l := poll_loop (S fuel) ticks i uid a r start (after x) in
         ending l = Ok tt
         /\ existsb is_remote (trace l) = false
         /\ existsb is_sleep (trace l) = false
  else
    x = Run (Ok tt) s [Ui (UpdateStatus St_nothing_to_stop);
                       Ui (After_set_ui_state finished)].
Proof.
  cbv zeta. destruct s as [n p st q c v th]. cbn [thread_alive].
  destruct th; [|reflexivity].
  split; [reflexivity|]. split; [reflexivity|].
  intros ticks uid a r start fuel i.
  change (after (stop_polling (App n p st q c v true))) with (App n p true q c v true).
  destruct (poll_loop_stopped ticks uid a r start fuel i
              (App n p true q c v true) eq_refl) as [E [_ T]].
  cbv zeta in E, T. split; [exact E|].
  destruct T as [T|T]; rewrite T; split; reflexivity.
Qed.

(** ** The exchange refused *)

(** X16.  An exchange response whose [state] is missing or false is
    fatal: the branch of "confirmed" raises a [RuntimeError] with the
    device class and the message of the response -- its [msg] if that is
    true, else its [error] if it has one, else "unknown error" -- after the
    one exchange request, and shows no credentials. *)
Theorem refused_exchange_is_fatal (uid : json) (a n : string) (r : reply body)
    (s : app) (d : list (string * json)) :
  let field k default := match lookup k d with Some v => v | None => default end in
  get_enum_name (Plain (JStr a)) = inr n ->
  answer r = Responds (Document (JDict d)) ->
  truthy (field "state" JNull) = false ->
  fetch_cookies uid a r s
  = Run (Raise (Exn RuntimeError
                  "fetching the cookie failed ({selected_app} App): {err_msg}"
                  [JStr a;
                   or_else (field "msg" JNull) (field "error" (JStr "unknown error"))]
                  None))
        (after (elapse (took r) s))
        [Ui (UpdateStatus St_confirmed);
         Call (Call_post_qrcode_result uid (Plain (JStr a)));
         UrlOpen (ResultApi n [("app", JStr n); ("account", uid)]) 10;
         Return (Json (JDict d))].
Proof.
  cbv zeta. intros N A F.
  unfold fetch_cookies, post_qrcode_result, loads, urlencode. rewrite N.
  destruct s as [n0 p st q c v th]. run_cbv. rewrite A. run_cbv.
  unfold err_msg_of, get, get_default, or_else.
  destruct d as [|kv d'].
  - run_cbv. cbv [truthy lookup]. run_cbv. reflexivity.
  - assert (T : truthy (JDict (kv :: d')) = true) by reflexivity.
    rewrite T. run_cbv. rewrite F. run_cbv.
    destruct (truthy match lookup "msg" (kv :: d') with
                     | Some v0 => v0
                     | None => JNull
                     end); run_cbv; reflexivity.
Qed.

Lemma refused_exchange_is_fatal_witness :
  ending (fetch_cookies (JStr "U1") "windows"
            (answers (JDict [("state", JInt 0); ("error", JStr "device limit")]))
            (started "windows"))
  = Raise (Exn RuntimeError "fetching the cookie failed ({selected_app} App): {err_msg}"
             [JStr "windows"; JStr "device limit"] None).
Proof.
  assert (N : get_enum_name (Plain (JStr "windows")) = inr "windows") by reflexivity.
  assert (A : answer (answers (JDict [("state", JInt 0); ("error", JStr "device limit")]))
              = Responds (Document (JDict [("state", JInt 0);
                                           ("error", JStr "device limit")])))
    by reflexivity.
  assert (F : truthy (JInt 0) = false) by reflexivity.
  exact (f_equal ending
           (refused_exchange_is_fatal (JStr "U1") "windows" "windows" _
              (started "windows") _ N A F)).
Defined.

(** ** The end of every session *)

Section NoReset.




End NoReset.


(** ** The cadence of the polls *)

Lemma paced_weaken b t : paced_from false t = true -> paced_from b t = true.
Proof.
  destruct t as [|e t]; simpl; [reflexivity|].
  destruct (is_status_call e); simpl; [discriminate|trivial].
Qed.

Lemma paced_app b d t :
  paced_from b d = true -> paced_from false t = true -> paced_from b (d ++ t) = true.
Proof.
  revert b. induction d as [|e d IH]; intros b; simpl.
  - intros _. apply paced_weaken.
  - intros H T. apply andb_true_iff in H. destruct H as [H1 H2].
    rewrite H1. simpl. now apply IH.
Qed.

Lemma paced_plain b t : filter is_status_call t = [] -> paced_from b t = true.
Proof.
  revert b. induction t as [|e t IH]; intros b; simpl; [reflexivity|].
  destruct (is_status_call e); [discriminate|]. simpl. apply IH.
Qed.

Lemma paced_sound t :
  paced_from false t = true ->
  forall pre payload post,
    t = pre ++ Call (Call_get_qrcode_status payload) :: post ->
    exists pre', pre = pre' ++ [Sleep 2].
Proof.
  assert (G : forall t b, paced_from b t = true ->
              forall pre payload post,
                t = pre ++ Call (Call_get_qrcode_status payload) :: post ->
                (pre = [] /\ b = true) \/ exists pre', pre = pre' ++ [Sleep 2]).
  { clear t. induction t as [|e t IH]; intros b H pre payload post E.
    - destruct pre; discriminate.
    - simpl in H. apply andb_true_iff in H. destruct H as [H1 H2].
      destruct pre as [|e' pre]; simpl in E; injection E as -> E.
      + left. simpl in H1. now split.
      + right. destruct (IH _ H2 _ _ _ E) as [[-> B]|[pre' ->]].
        * exists []. simpl. destruct e'; try discriminate.
          apply Z.eqb_eq in B. now subst.
        * now exists (e' :: pre'). }
  intros H pre payload post E. destruct (G _ _ H _ _ _ E) as [[_ B]|X]; [discriminate|exact X].
Qed.

Lemma loop_body_paced t uid a r start s :
  paced_from false (trace (loop_body t uid a r start s)) = true.
Proof.
  destruct (loop_body_shape t uid a r start s)
    as [[T _]|[[T _]|[[payload [x [T _]]]|[payload [mid [resp [F [[T _]|[s' [T _]]]]]]]]]];
    rewrite T; try reflexivity.
  - simpl. apply paced_plain. rewrite filter_app, (poll_detail_no_status_call _ F).
    reflexivity.
  - simpl. apply paced_plain.
    rewrite filter_app, (poll_detail_no_status_call _ F). simpl.
    apply on_status_no_status_call.
Qed.

Lemma poll_loop_paced ticks uid a r start fuel i s :
  paced_from false (trace (poll_loop fuel ticks i uid a r start s)) = true.
Proof.
  apply (poll_loop_rule ticks uid a r start
           (fun d => paced_from false d = true)
           (fun _ t => paced_from false t = true)).
  - intros d e t. apply paced_app.
  - reflexivity.
  - split; reflexivity.
  - intros t s0. cbv zeta. pose proof (loop_body_paced t uid a r start s0) as P.
    now destruct (ending (loop_body t uid a r start s0)) as [[|]|e|].
Qed.

(** X18.  Every status poll is entered right after a sleep of two
    seconds: nothing comes between the sleep and the poll, and no session
    polls without having slept. *)
Theorem polls_are_paced (env : environment) (s : app) :
  forall pre payload post,
    trace (_login_thread_func env s)
    = pre ++ Call (Call_get_qrcode_status payload) :: post ->
    exists pre', pre = pre' ++ [Sleep 2].
Proof.
  apply paced_sound.
  destruct (worker_anatomy env s) as [s0 [_ [_ T]]]. cbv zeta in T. rewrite T. clear T.
  fold (epilogue (ending (login_steps env (current_app_type s) s0))).
  assert (E : paced_from false
                (epilogue (ending (login_steps env (current_app_type s) s0))) = true)
    by now destruct (ending (login_steps env (current_app_type s) s0)).
  apply paced_app; [|exact E].
  destruct (login_steps_anatomy env (current_app_type s) s0)
    as [[P _]|[[e [raised [pre [uid [_ [_ [P T1]]]]]]]|[b [pre [uid [s1 [_ [P [_ L]]]]]]]]].
  - apply paced_plain, prelude_no_status_call, token_phase_prelude, P.
  - rewrite T1. apply paced_plain.
    rewrite filter_app, (prelude_no_status_call _ (token_phase_prelude _ P)).
    reflexivity.
  - cbv zeta in L. destruct L as [tail [T1 [_ Tl]]]. rewrite T1.
    apply paced_app;
      [apply paced_plain, prelude_no_status_call, token_phase_prelude, P|].
    apply paced_app; [apply paced_plain, prelude_no_status_call, image_shown_prelude|].
    apply (paced_app false [Ui (UpdateStatus St_waiting_for_scan)]); [reflexivity|].
    apply paced_app; [apply poll_loop_paced|].
    destruct Tl as [[-> _]|[-> _]]; reflexivity.
Qed.

(** ** A poll response that is no object *)

(** X19.  A poll response that is empty -- [null], [false], zero, an
    empty string, list or object -- is only reported: the turn goes on.  A
    response that is not empty and not an object ends the loop with the
    [AttributeError] of its missing [get]. *)
Theorem poll_response_must_be_object (resp uid : json) (a : string) (r : reply body)
    (s : app) :
  (truthy resp = false ->
   on_status resp uid a r s = Run (Ok Continue) s [Ui (UpdateStatus St_empty_response)])
  /\ (truthy resp = true ->
      (forall d, resp <> JDict d) ->
      exists e,
        class_of e = AttributeError
        /\ on_status resp uid a r s = Run (Raise e) s []).
Proof.
  split.
  - intros T. unfold on_status. rewrite T. reflexivity.
  - intros T N. unfold on_status. rewrite T. cbn [negb].
    destruct resp as [| | | | | |d];
      try (eexists; split; [|reflexivity]; reflexivity).
    now destruct (N d).
Qed.

Lemma poll_response_must_be_object_witness :
  exists e,
    class_of e = AttributeError
    /\ on_status (JList [JInt 2]) (JStr "U1") "windows" cookies_granted (started "windows")
       = Run (Raise e) (started "windows") [].
Proof.
  assert (T : truthy (JList [JInt 2]) = true) by reflexivity.
  assert (N : forall d, JList [JInt 2] <> JDict d) by (intros d; discriminate).
  exact (proj2 (poll_response_must_be_object (JList [JInt 2]) (JStr "U1") "windows"
                  cookies_granted (started "windows")) T N).
Defined.

(** ** Sessions, run *)

Lemma refused_token_ends_session_witness :
  In (Ui (ErrorBox (inl (Exn RuntimeError "getting the token failed: {err_msg}"
                           [JStr "busy"] None))))
     (trace (_login_thread_func session_token_refused (started "windows"))).
Proof.
  assert (A : answer (token session_token_refused)
              = Responds (Document (JDict [("state", JInt 0); ("msg", JStr "");
                                           ("error", JStr "busy")]))) by reflexivity.
  assert (F : truthy (JInt 0) = false) by reflexivity.
  rewrite (refused_token_ends_session session_token_refused (started "windows") _ A F).
  simpl. tauto.
Defined.

Lemma malformed_token_ends_session_witness :
  In (Ui (ErrorBox (inl (Exn RuntimeError
                           "the token response is malformed: {self.qrcode_token}"
                           [JDict [("qrcode", JStr "115://U1")]] None))))
     (trace (_login_thread_func session_token_bare (started "windows"))).
Proof.
  assert (A : answer (token session_token_bare)
              = Responds (Document (JDict [("state", JInt 1);
                                           ("data", JDict [("qrcode", JStr "115://U1")])])))
    by reflexivity.
  assert (F : truthy (JInt 1) = true) by reflexivity.
  assert (D : lookup "data" [("state", JInt 1);
                             ("data", JDict [("qrcode", JStr "115://U1")])]
              = Some (JDict [("qrcode", JStr "115://U1")])) by reflexivity.
  assert (L : lookup "qrcode" [("qrcode", JStr "115://U1")] = None
              \/ lookup "uid" [("qrcode", JStr "115://U1")] = None)
    by (right; reflexivity).
  rewrite (malformed_token_ends_session session_token_bare (started "windows") _ _
             A F D L).
  simpl. tauto.
Defined.


(** ** Starting a login *)

Section AppTypeKept.

Variable chosen : string.

Ltac chosen_side :=
  solve [ exact I | intros; exact I
        | intros [? ? ? ? ? ? ?]; unfold disturbed; simpl; tauto ].

Lemma chosen_poll_loop ticks uid a r start fuel :
  forall i,
    respects (fun s => current_app_type s = chosen /\ selected_app_type_var s = chosen)
      (fun _ => True) (poll_loop fuel ticks i uid a r start).
Proof.
  induction fuel as [|fuel IH]; intros i; cbn [poll_loop]; cbv zeta.
  - apply respects_diverge.
  - respects_with ltac:(apply IH) chosen_side.
Qed.

Lemma chosen_worker env :
  respects (fun s => current_app_type s = chosen /\ selected_app_type_var s = chosen)
    (fun _ => True) (_login_thread_func env).
Proof. respects_with ltac:(apply chosen_poll_loop) chosen_side. Qed.

End AppTypeKept.

(** X20.  [start_login_process] while a session is active only says so:
    nothing is asked of the remote service and the application is left as it
    is.  With no session active and a device class selected, it sets the
    window to running, clears the credentials shown and the image before
    anything is asked of the remote service, clears the stop event and runs
    the worker for the selected class; when the worker is over the guard is
    reset, no thread is alive and the class is still the selected one. *)
Theorem start_runs_the_selected_session (env : environment) (s : app) :
  let x := start_login_process env s in
  if polling_active s then
    x = Run (Ok tt) s [Ui (InfoBox "a login is already in progress" [])]
  else
    String.eqb (selected_app_type_var s) "" = false ->
    let chosen := selected_app_type_var s in
    let s0 := App (now s) false false (qrcode_token s) chosen chosen true in
    trace x
    = [Ui (Widgets running); Ui (UpdateStatus St_fetching_qrcode); Ui CookieClear;
       Ui (QrText "loading")]
      ++ trace (_login_thread_func env s0)
    /\ ending x = Ok tt
    /\ polling_active (after x) = false
    /\ thread_alive (after x) = false
    /\ current_app_type (after x) = chosen.
Proof.
  cbv zeta. unfold start_login_process. destruct s as [n p st q c v th].
  cbn [polling_active selected_app_type_var now qrcode_token]. destruct p.
  - reflexivity.
  - intros V. run_cbv. rewrite V. run_cbv.
    destruct (worker_returns env (App n false false q v v true)) as [E P].
    destruct (chosen_worker v env (App n false false q v v true) (conj eq_refl eq_refl))
      as [[K _] _].
    destruct (_login_thread_func env (App n false false q v v true))
      as [e [n1 p1 st1 q1 c1 v1 th1] t1].
    cbn [ending after polling_active current_app_type] in E, P, K. subst e p1 c1.
    run_cbv. rewrite app_nil_r. repeat split.
Qed.

Lemma start_runs_the_selected_session_witness :
  current_app_type (after (start_login_process session_granted (fresh "windows")))
  = "windows".
Proof.
  pose proof (start_runs_the_selected_session session_granted (fresh "windows")) as H.
  cbv zeta in H.
  change (polling_active (fresh "windows")) with false in H. cbv beta iota in H.
  assert (V : String.eqb (selected_app_type_var (fresh "windows")) "" = false)
    by reflexivity.
  exact (proj2 (proj2 (proj2 (proj2 (H V))))).
Defined.



Lemma polls_are_paced_witness :
  exists pre',
    firstn 11 (trace (_login_thread_func session_granted (started "windows")))
    = pre' ++ [Sleep 2].
Proof.
  assert (E : trace (_login_thread_func session_granted (started "windows"))
              = firstn 11 (trace (_login_thread_func session_granted (started "windows")))
                ++ Call (Call_get_qrcode_status
                           (JDict [("uid", JStr "U1"); ("time", JInt 1700000000);
                                   ("sign", JStr "f00d")]))
                   :: skipn 12 (trace (_login_thread_func session_granted
                                         (started "windows"))))
    by (vm_compute; reflexivity).
  exact (polls_are_paced session_granted (started "windows") _ _ _ E).
Defined.
